(** * nykAorticApp main window: a model of the customization layer

    The repository is a thin layer over the host's main-window classes
    [qSlicerMainWindow] / [qSlicerMainWindowPrivate].  The layer's three
    source files define

    - [qnykAorticAppMainWindowPrivate::init] and [::setupUi],
    - the two constructors of [qnykAorticAppMainWindow],
    - the slot [on_HelpAboutnykAorticAppAction_triggered].

    The methods are embedded as programs of a state-and-failure monad
    over a store of toolkit objects.  Every toolkit call of the source is
    one primitive of the monad; a primitive updates the store and appends
    one entry to a log of the calls the layer issued, in program order.
    The host's own methods (the superclass calls) are not part of the
    repository: they are fields of a [Host] record and every theorem is
    stated for an arbitrary host. *)

From Stdlib Require Import ZArith String List Lia.
From stdpp Require Import base option gmap strings list fin_maps fin_sets.

Open Scope Z_scope.
Open Scope string_scope.
Open Scope list_scope.

(** ** Toolkit values *)

(** An object address; a C++ pointer is an optional address, [None]
    being the null pointer. *)
Abbreviation ptr := (option nat).

Record QSize := mkQSize { width : Z; height : Z }.

(** A decoded image of the resource table. *)
Record Image := mkImage { img_size : QSize; img_key : N }.

(** [QPixmap]: either the null pixmap or a loaded image. *)
Inductive QPixmap :=
| NullPixmap
| Pixmap (img : Image).

Definition QPixmap_isNull (pm : QPixmap) : bool :=
  match pm with NullPixmap => true | Pixmap _ => false end.

Definition QPixmap_size (pm : QPixmap) : QSize :=
  match pm with NullPixmap => mkQSize 0 0 | Pixmap i => img_size i end.

(** [QIcon]: the null icon or an icon naming a file, loaded on demand. *)
Inductive QIcon :=
| NullIcon
| IconFile (path : string).

Record QMargins := mkQMargins { m_left : Z; m_top : Z; m_right : Z; m_bottom : Z }.

Inductive LayoutItem :=
| ItemWidget (w : nat)
| ItemStretch (factor : Z).

(** [Qt::AlignmentFlag] and [Qt::ApplicationAttribute] values used by the
    layer. *)
Definition Qt_AlignLeft : Z := 0x0001.
Definition Qt_AlignVCenter : Z := 0x0080.
Definition Qt_AA_UseHighDpiPixmaps : nat := 13%nat.

(** [QT_VERSION_CHECK(major, minor, patch)]. *)
Definition QT_VERSION_CHECK (major minor patch : Z) : Z :=
  Z.lor (Z.lor (Z.shiftl major 16) (Z.shiftl minor 8)) patch.

(** ** Toolkit objects *)

Inductive QClass :=
| QAction_
| QWidget_
| QLabel_
| QMenu_
| QMenuBar_
| QDockWidget_
| QMainWindow_
| QHBoxLayout_
| qSlicerAboutDialog_.

Global Instance QClass_eq_dec : EqDecision QClass.
Proof. solve_decision. Defined.

(** One record for every object of the store.  A field that a class does
    not have keeps its initial value for the objects of that class. *)
Record QObject := mkQObject {
  cls : QClass;
  parent : ptr;
  objectName : string;
  (* QWidget *)
  visible : bool;
  windowIcon : QIcon;
  minimumHeight : Z;
  contentsMargins : QMargins;
  styleSheet : string;
  actions : list nat;
  layout : ptr;
  (* QAction, QLabel *)
  text : string;
  pixmap : QPixmap;
  alignment : Z;
  (* QLayout *)
  items : list LayoutItem;
  spacing : Z;
  (* QDockWidget *)
  titleBarWidget : ptr;
  (* qSlicerAboutDialog *)
  logo : QPixmap;
  (* the main window's pointer to its private object *)
  d_ptr : ptr
}.

Definition QObject_init (c : QClass) (p : ptr) : QObject :=
  mkQObject c p "" false NullIcon 0 (mkQMargins 0 0 0 0) "" [] None
            "" NullPixmap 0 [] (-1) None NullPixmap None.

Definition set_parent (v : ptr) (o : QObject) : QObject :=
  mkQObject (cls o) v (objectName o) (visible o) (windowIcon o) (minimumHeight o) (contentsMargins o) (styleSheet o) (actions o)
            (layout o) (text o) (pixmap o) (alignment o) (items o) (spacing o) (titleBarWidget o) (logo o) (d_ptr o).

Definition set_objectName (v : string) (o : QObject) : QObject :=
  mkQObject (cls o) (parent o) v (visible o) (windowIcon o) (minimumHeight o) (contentsMargins o) (styleSheet o) (actions o)
            (layout o) (text o) (pixmap o) (alignment o) (items o) (spacing o) (titleBarWidget o) (logo o) (d_ptr o).

Definition set_visible (v : bool) (o : QObject) : QObject :=
  mkQObject (cls o) (parent o) (objectName o) v (windowIcon o) (minimumHeight o) (contentsMargins o) (styleSheet o) (actions o)
            (layout o) (text o) (pixmap o) (alignment o) (items o) (spacing o) (titleBarWidget o) (logo o) (d_ptr o).

Definition set_windowIcon (v : QIcon) (o : QObject) : QObject :=
  mkQObject (cls o) (parent o) (objectName o) (visible o) v (minimumHeight o) (contentsMargins o) (styleSheet o) (actions o)
            (layout o) (text o) (pixmap o) (alignment o) (items o) (spacing o) (titleBarWidget o) (logo o) (d_ptr o).

Definition set_minimumHeight (v : Z) (o : QObject) : QObject :=
  mkQObject (cls o) (parent o) (objectName o) (visible o) (windowIcon o) v (contentsMargins o) (styleSheet o) (actions o)
            (layout o) (text o) (pixmap o) (alignment o) (items o) (spacing o) (titleBarWidget o) (logo o) (d_ptr o).

Definition set_contentsMargins (v : QMargins) (o : QObject) : QObject :=
  mkQObject (cls o) (parent o) (objectName o) (visible o) (windowIcon o) (minimumHeight o) v (styleSheet o) (actions o)
            (layout o) (text o) (pixmap o) (alignment o) (items o) (spacing o) (titleBarWidget o) (logo o) (d_ptr o).

Definition set_styleSheet (v : string) (o : QObject) : QObject :=
  mkQObject (cls o) (parent o) (objectName o) (visible o) (windowIcon o) (minimumHeight o) (contentsMargins o) v (actions o)
            (layout o) (text o) (pixmap o) (alignment o) (items o) (spacing o) (titleBarWidget o) (logo o) (d_ptr o).

Definition set_actions (v : list nat) (o : QObject) : QObject :=
  mkQObject (cls o) (parent o) (objectName o) (visible o) (windowIcon o) (minimumHeight o) (contentsMargins o) (styleSheet o) v
            (layout o) (text o) (pixmap o) (alignment o) (items o) (spacing o) (titleBarWidget o) (logo o) (d_ptr o).

Definition set_layout (v : ptr) (o : QObject) : QObject :=
  mkQObject (cls o) (parent o) (objectName o) (visible o) (windowIcon o) (minimumHeight o) (contentsMargins o) (styleSheet o) (actions o)
            v (text o) (pixmap o) (alignment o) (items o) (spacing o) (titleBarWidget o) (logo o) (d_ptr o).

Definition set_text (v : string) (o : QObject) : QObject :=
  mkQObject (cls o) (parent o) (objectName o) (visible o) (windowIcon o) (minimumHeight o) (contentsMargins o) (styleSheet o) (actions o)
            (layout o) v (pixmap o) (alignment o) (items o) (spacing o) (titleBarWidget o) (logo o) (d_ptr o).

Definition set_pixmap (v : QPixmap) (o : QObject) : QObject :=
  mkQObject (cls o) (parent o) (objectName o) (visible o) (windowIcon o) (minimumHeight o) (contentsMargins o) (styleSheet o) (actions o)
            (layout o) (text o) v (alignment o) (items o) (spacing o) (titleBarWidget o) (logo o) (d_ptr o).

Definition set_alignment (v : Z) (o : QObject) : QObject :=
  mkQObject (cls o) (parent o) (objectName o) (visible o) (windowIcon o) (minimumHeight o) (contentsMargins o) (styleSheet o) (actions o)
            (layout o) (text o) (pixmap o) v (items o) (spacing o) (titleBarWidget o) (logo o) (d_ptr o).

Definition set_items (v : list LayoutItem) (o : QObject) : QObject :=
  mkQObject (cls o) (parent o) (objectName o) (visible o) (windowIcon o) (minimumHeight o) (contentsMargins o) (styleSheet o) (actions o)
            (layout o) (text o) (pixmap o) (alignment o) v (spacing o) (titleBarWidget o) (logo o) (d_ptr o).

Definition set_spacing (v : Z) (o : QObject) : QObject :=
  mkQObject (cls o) (parent o) (objectName o) (visible o) (windowIcon o) (minimumHeight o) (contentsMargins o) (styleSheet o) (actions o)
            (layout o) (text o) (pixmap o) (alignment o) (items o) v (titleBarWidget o) (logo o) (d_ptr o).

Definition set_titleBarWidget (v : ptr) (o : QObject) : QObject :=
  mkQObject (cls o) (parent o) (objectName o) (visible o) (windowIcon o) (minimumHeight o) (contentsMargins o) (styleSheet o) (actions o)
            (layout o) (text o) (pixmap o) (alignment o) (items o) (spacing o) v (logo o) (d_ptr o).

Definition set_logo (v : QPixmap) (o : QObject) : QObject :=
  mkQObject (cls o) (parent o) (objectName o) (visible o) (windowIcon o) (minimumHeight o) (contentsMargins o) (styleSheet o) (actions o)
            (layout o) (text o) (pixmap o) (alignment o) (items o) (spacing o) (titleBarWidget o) v (d_ptr o).

Definition set_d_ptr (v : ptr) (o : QObject) : QObject :=
  mkQObject (cls o) (parent o) (objectName o) (visible o) (windowIcon o) (minimumHeight o) (contentsMargins o) (styleSheet o) (actions o)
            (layout o) (text o) (pixmap o) (alignment o) (items o) (spacing o) (titleBarWidget o) (logo o) v.

(** The private object.  [qnykAorticAppMainWindowPrivate] declares no data
    member: all its fields are the superclass's, of which the layer's
    source names the ones below. *)
Record PrivateData := mkPrivate {
  q_ptr : ptr;
  menubar : ptr;
  FileMenu : ptr;
  EditMenu : ptr;
  ViewMenu : ptr;
  LayoutMenu : ptr;
  HelpMenu : ptr;
  PanelDockWidget : ptr
}.

(** ** The toolkit state and the layer's call log *)

Record QtState := mkQt {
  heap : gmap nat QObject;
  pimpls : gmap nat PrivateData;
  attributes : gset nat;
  applicationName : string
}.

Inductive DebugItem :=
| DText (s : string)
| DSize (sz : QSize).

(** One entry per constructor, mutator, output or superclass call of the
    source; queries ([application()], [isNull()], [size()]) are not
    logged. *)
Inductive Call :=
| C_setAttribute (a : nat)
| C_Superclass_init (d : nat)
| C_Superclass_setupUi (d : nat) (mw : ptr)
| C_Superclass_Private_ctor (q : nat) (d : nat)
| C_Superclass_ctor (this : nat) (d : ptr) (windowParent : ptr)
| C_new (c : QClass) (p : ptr) (r : nat)
| C_delete (o : nat)
| C_QIcon (path : string)
| C_QPixmap (path : string)
| C_qDebug (msg : list DebugItem)
| C_setObjectName (o : nat) (n : string)
| C_setText (o : nat) (t : string)
| C_addAction (w a : nat)
| C_setWindowIcon (w : nat) (i : QIcon)
| C_setPixmap (l : nat) (pm : QPixmap)
| C_setAlignment (l : nat) (a : Z)
| C_setContentsMargins (o : nat) (m : QMargins)
| C_setStyleSheet (o : nat) (s : string)
| C_setVisible (o : nat) (b : bool)
| C_setMinimumHeight (o : nat) (h : Z)
| C_setSpacing (o : nat) (s : Z)
| C_addWidget (l w : nat)
| C_addStretch (l : nat) (f : Z)
| C_setTitleBarWidget (dw : nat) (w : nat)
| C_setLogo (dlg : nat) (pm : QPixmap)
| C_exec (dlg : nat).

Record World := mkWorld {
  qt : QtState;
  calls : list Call
}.

(** ** The monad: state passing with failure

    [None] is a run the C++ semantics leaves undefined: dereferencing a
    null pointer, or a pointer that does not address a live object of the
    pointer's class. *)
Definition M (A : Type) : Type := World -> option (A * World).

Definition ret {A} (a : A) : M A := fun w => Some (a, w).

Definition bind {A B} (m : M A) (k : A -> M B) : M B :=
  fun w => match m w with
           | Some (a, w') => k a w'
           | None => None
           end.

Definition fail {A} : M A := fun _ => None.

Notation "x <- m ;; k" := (bind m (fun x => k))
  (at level 100, m at next level, right associativity).
Notation "m ;;; k" := (bind m (fun _ => k))
  (at level 100, right associativity).

Definition log (c : Call) : M unit :=
  fun w => Some (tt, mkWorld (qt w) (calls w ++ [c])).

Definition set_heap (h : gmap nat QObject) (q : QtState) : QtState :=
  mkQt h (pimpls q) (attributes q) (applicationName q).

Definition set_attributes (a : gset nat) (q : QtState) : QtState :=
  mkQt (heap q) (pimpls q) a (applicationName q).

(** Allocation of a fresh object of class [c] with parent [p]. *)
Definition new (c : QClass) (p : ptr) : M nat :=
  fun w =>
    let l := fresh (dom (heap (qt w))) in
    Some (l, mkWorld (set_heap (<[l := QObject_init c p]> (heap (qt w))) (qt w))
                     (calls w ++ [C_new c p l])).

(** Reading through a pointer of static type [c]. *)
Definition deref (c : QClass) (l : nat) : M QObject :=
  fun w => match heap (qt w) !! l with
           | Some o => if decide (cls o = c) then Some (o, w) else None
           | None => None
           end.

(** Writing through a pointer of static type [c]. *)
Definition upd (c : QClass) (l : nat) (f : QObject -> QObject) : M unit :=
  fun w => match heap (qt w) !! l with
           | Some o =>
               if decide (cls o = c)
               then Some (tt, mkWorld (set_heap (<[l := f o]> (heap (qt w))) (qt w))
                                      (calls w))
               else None
           | None => None
           end.

Definition nonnull {A} (p : option A) : M A :=
  match p with Some a => ret a | None => fail end.

(** ** Toolkit primitives

    Each primitive is one call of the source.  Its effect on the store
    follows the toolkit's documentation; [c] is the static class of the
    pointer the call goes through. *)

(** [QApplication::setAttribute(a)], the flag defaulting to [true]. *)
Definition QApplication_setAttribute (a : nat) : M unit :=
  fun w => Some (tt, mkWorld (set_attributes ({[a]} ∪ attributes (qt w)) (qt w))
                             (calls w ++ [C_setAttribute a])).

(** [qSlicerApplication::application()]: the application instance, of
    which the layer uses nothing but the name. *)
Definition qSlicerApplication_application : M unit := ret tt.

(** [app->applicationName()]: a static member, so the call reads the
    application's name whatever [app] is. *)
Definition QCoreApplication_applicationName (app : unit) : M string :=
  fun w => Some (applicationName (qt w), w).

Definition QObject_setObjectName (c : QClass) (o : nat) (n : string) : M unit :=
  upd c o (set_objectName n) ;;; log (C_setObjectName o n).

Definition QAction_setText (a : nat) (t : string) : M unit :=
  upd QAction_ a (set_text t) ;;; log (C_setText a t).

(** [QWidget::addAction]: the action goes to the end of the widget's
    list; a widget holds an action once, so an earlier occurrence is
    removed first. *)
Definition QWidget_addAction (c : QClass) (w a : nat) : M unit :=
  _ <- deref QAction_ a ;;
  upd c w (fun o => set_actions (filter (fun x => x ≠ a) (actions o) ++ [a]) o) ;;;
  log (C_addAction w a).

(** [QIcon(path)]: the file is named, not read. *)
Definition QIcon_fromFile (path : string) : M QIcon :=
  log (C_QIcon path) ;;; ret (IconFile path).

(** [QPixmap(path)] over the resource table [rcc]: the null pixmap when
    the table has no entry for [path]. *)
Definition load (rcc : gmap string Image) (path : string) : QPixmap :=
  match rcc !! path with Some i => Pixmap i | None => NullPixmap end.

Definition QPixmap_fromFile (rcc : gmap string Image) (path : string) : M QPixmap :=
  log (C_QPixmap path) ;;; ret (load rcc path).

Definition qDebug (msg : list DebugItem) : M unit := log (C_qDebug msg).

Definition QWidget_setWindowIcon (c : QClass) (w : nat) (i : QIcon) : M unit :=
  upd c w (set_windowIcon i) ;;; log (C_setWindowIcon w i).

Definition QLabel_setPixmap (l : nat) (pm : QPixmap) : M unit :=
  upd QLabel_ l (set_pixmap pm) ;;; log (C_setPixmap l pm).

Definition QLabel_setAlignment (l : nat) (a : Z) : M unit :=
  upd QLabel_ l (set_alignment a) ;;; log (C_setAlignment l a).

Definition setContentsMargins (c : QClass) (o : nat) (l t r b : Z) : M unit :=
  upd c o (set_contentsMargins (mkQMargins l t r b)) ;;;
  log (C_setContentsMargins o (mkQMargins l t r b)).

Definition QWidget_setStyleSheet (c : QClass) (o : nat) (s : string) : M unit :=
  upd c o (set_styleSheet s) ;;; log (C_setStyleSheet o s).

Definition QWidget_setVisible (c : QClass) (o : nat) (b : bool) : M unit :=
  upd c o (set_visible b) ;;; log (C_setVisible o b).

Definition QWidget_setMinimumHeight (c : QClass) (o : nat) (h : Z) : M unit :=
  upd c o (set_minimumHeight h) ;;; log (C_setMinimumHeight o h).

(** [new QHBoxLayout(parent)]: the layout is installed on [parent]. *)
Definition new_QHBoxLayout (c : QClass) (p : nat) : M nat :=
  y <- new QHBoxLayout_ (Some p) ;;
  upd c p (set_layout (Some y)) ;;;
  ret y.

Definition QBoxLayout_setSpacing (l : nat) (s : Z) : M unit :=
  upd QHBoxLayout_ l (set_spacing s) ;;; log (C_setSpacing l s).

(** [QLayout::addWidget]: the widget becomes a child of the widget the
    layout is installed on, and the layout's last item. *)
Definition QLayout_addWidget (l : nat) (c : QClass) (w : nat) : M unit :=
  y <- deref QHBoxLayout_ l ;;
  upd c w (set_parent (parent y)) ;;;
  upd QHBoxLayout_ l (fun o => set_items (items o ++ [ItemWidget w]) o) ;;;
  log (C_addWidget l w).

Definition QBoxLayout_addStretch (l : nat) (f : Z) : M unit :=
  upd QHBoxLayout_ l (fun o => set_items (items o ++ [ItemStretch f]) o) ;;;
  log (C_addStretch l f).

(** [QDockWidget::setTitleBarWidget]: the dock widget takes the widget as
    its title bar and as its child. *)
Definition QDockWidget_setTitleBarWidget (dw : nat) (c : QClass) (w : nat) : M unit :=
  upd c w (set_parent (Some dw)) ;;;
  upd QDockWidget_ dw (set_titleBarWidget (Some w)) ;;;
  log (C_setTitleBarWidget dw w).

Definition qSlicerAboutDialog_setLogo (dlg : nat) (pm : QPixmap) : M unit :=
  upd qSlicerAboutDialog_ dlg (set_logo pm) ;;; log (C_setLogo dlg pm).

(** [QDialog::exec]: the dialog is shown modally; the call is recorded,
    its return code is not used by the layer. *)
Definition QDialog_exec (dlg : nat) : M unit :=
  _ <- deref qSlicerAboutDialog_ dlg ;;
  log (C_exec dlg).

(** Destruction of an object of the store. *)
Definition delete (o : nat) : M unit :=
  fun w => Some (tt, mkWorld (set_heap (base.delete o (heap (qt w))) (qt w))
                             (calls w ++ [C_delete o])).

(** [this->f] followed by a call through it, for a field [f] of the
    private object at [d]. *)
Definition field (d : nat) (f : PrivateData -> ptr) : M nat :=
  fun w => match pimpls (qt w) !! d with
           | Some pv => match f pv with
                        | Some l => Some (l, w)
                        | None => None
                        end
           | None => None
           end.

(** [Q_D]: the window's pointer to its private object. *)
Definition d_func (this : nat) : M nat :=
  o <- deref QMainWindow_ this ;;
  nonnull (d_ptr o).

(** ** The host

    The superclass methods the layer forwards to.  Each acts on the
    toolkit state; the layer's call log is out of its reach. *)
Record Host := mkHost {
  qSlicerMainWindowPrivate_ctor : nat -> QtState -> option (nat * QtState);
  qSlicerMainWindowPrivate_init : nat -> QtState -> option QtState;
  qSlicerMainWindowPrivate_setupUi : nat -> ptr -> QtState -> option QtState;
  qSlicerMainWindow_ctor : nat -> ptr -> ptr -> QtState -> option QtState
}.

Definition call_host (c : Call) (f : QtState -> option QtState) : M unit :=
  fun w => match f (qt w) with
           | Some q => Some (tt, mkWorld q (calls w ++ [c]))
           | None => None
           end.

Definition call_host_new (c : nat -> Call) (f : QtState -> option (nat * QtState)) : M nat :=
  fun w => match f (qt w) with
           | Some (r, q) => Some (r, mkWorld q (calls w ++ [c r]))
           | None => None
           end.

(** ** The layer *)

Section Layer.

(** The build: the toolkit version the layer is compiled against and
    the embedded resource table. *)
Variable QT_VERSION : Z.
Variable rcc : gmap string Image.
Variable host : Host.

(** [qnykAorticAppMainWindowPrivate::qnykAorticAppMainWindowPrivate]:
    the superclass constructor, and an empty body. *)
Definition qnykAorticAppMainWindowPrivate_ctor (object : nat) : M nat :=
  call_host_new (C_Superclass_Private_ctor object)
                (qSlicerMainWindowPrivate_ctor host object).

(** [qnykAorticAppMainWindowPrivate::init].  The version test is the
    source's preprocessor conditional; the [Q_Q] line declares a local
    the body does not use. *)
Definition qnykAorticAppMainWindowPrivate_init (d : nat) : M unit :=
  (if (QT_VERSION_CHECK 5 7 0 <=? QT_VERSION)%Z
   then QApplication_setAttribute Qt_AA_UseHighDpiPixmaps
   else ret tt) ;;;
  call_host (C_Superclass_init d) (qSlicerMainWindowPrivate_init host d).

(** [qnykAorticAppMainWindowPrivate::setupUi], statement by statement.
    The six [setVisible(false)] lines that end the source's body are
    commented out there and have no counterpart here. *)
Definition qnykAorticAppMainWindowPrivate_setupUi (d : nat) (mainWindow : ptr) : M unit :=
  app <- qSlicerApplication_application ;;
  helpAboutSlicerAppAction <- new QAction_ mainWindow ;;
  QObject_setObjectName QAction_ helpAboutSlicerAppAction "HelpAboutnykAorticAppAction" ;;;
  appName <- QCoreApplication_applicationName app ;;
  QAction_setText helpAboutSlicerAppAction ("About " +:+ appName) ;;;
  call_host (C_Superclass_setupUi d mainWindow)
            (qSlicerMainWindowPrivate_setupUi host d mainWindow) ;;;
  helpMenu <- field d HelpMenu ;;
  QWidget_addAction QMenu_ helpMenu helpAboutSlicerAppAction ;;;
  icon <- QIcon_fromFile ":/Icons/Medium/DesktopIcon.png" ;;
  mw <- nonnull mainWindow ;;
  QWidget_setWindowIcon QMainWindow_ mw icon ;;;
  logoLabel <- new QLabel_ None ;;
  QObject_setObjectName QLabel_ logoLabel "LogoLabel" ;;;
  logoPixmap <- QPixmap_fromFile rcc ":/LogoFull.png" ;;
  qDebug [DText "Logo pixmap is";
          DText (if QPixmap_isNull logoPixmap then "NULL" else "valid");
          DText "with size";
          DSize (QPixmap_size logoPixmap)] ;;;
  QLabel_setPixmap logoLabel logoPixmap ;;;
  QLabel_setAlignment logoLabel (Z.lor Qt_AlignLeft Qt_AlignVCenter) ;;;
  setContentsMargins QLabel_ logoLabel 5 0 0 0 ;;;
  QWidget_setStyleSheet QLabel_ logoLabel
    "QLabel#LogoLabel { background-color: transparent; padding: 2px; margin-right: 10px; }" ;;;
  QWidget_setVisible QLabel_ logoLabel true ;;;
  customTitleBar <- new QWidget_ None ;;
  QWidget_setMinimumHeight QWidget_ customTitleBar 25 ;;;
  titleLayout <- new_QHBoxLayout QWidget_ customTitleBar ;;
  setContentsMargins QHBoxLayout_ titleLayout 0 0 0 0 ;;;
  QBoxLayout_setSpacing titleLayout 10 ;;;
  QLayout_addWidget titleLayout QLabel_ logoLabel ;;;
  QBoxLayout_addStretch titleLayout 1 ;;;
  panelDockWidget <- field d PanelDockWidget ;;
  QDockWidget_setTitleBarWidget panelDockWidget QWidget_ customTitleBar.

(** The public constructor of [qnykAorticAppMainWindow], taking the
    parent widget; [this] is the storage the window is built in. *)
Definition qnykAorticAppMainWindow_ctor (this : nat) (windowParent : ptr) : M unit :=
  pimpl <- qnykAorticAppMainWindowPrivate_ctor this ;;
  call_host (C_Superclass_ctor this (Some pimpl) windowParent)
            (qSlicerMainWindow_ctor host this (Some pimpl) windowParent) ;;;
  d <- d_func this ;;
  qnykAorticAppMainWindowPrivate_init d.

(** The protected constructor of [qnykAorticAppMainWindow], taking the
    private object and the parent widget. *)
Definition qnykAorticAppMainWindow_ctor_pimpl
           (this : nat) (pimpl : ptr) (windowParent : ptr) : M unit :=
  call_host (C_Superclass_ctor this pimpl windowParent)
            (qSlicerMainWindow_ctor host this pimpl windowParent).

(** [qnykAorticAppMainWindow::on_HelpAboutnykAorticAppAction_triggered];
    [about] lives on the stack and is destroyed when the slot returns. *)
Definition on_HelpAboutnykAorticAppAction_triggered (this : nat) : M unit :=
  about <- new qSlicerAboutDialog_ (Some this) ;;
  logoPixmap <- QPixmap_fromFile rcc ":/Logo.png" ;;
  qSlicerAboutDialog_setLogo about logoPixmap ;;;
  QDialog_exec about ;;;
  delete about.

End Layer.



(** ** Vocabulary of the statements *)

(** The log entries a run of [m] from [w] appends. *)
Definition issued {A} (m : M A) (w : World) : option (list Call) :=
  match m w with
  | Some (_, w') => Some (drop (length (calls w)) (calls w'))
  | None => None
  end.

Definition is_Superclass_call (c : Call) : bool :=
  match c with
  | C_Superclass_init _ | C_Superclass_setupUi _ _
  | C_Superclass_Private_ctor _ _ | C_Superclass_ctor _ _ _ => true
  | _ => false
  end.

(** The resource path a log entry names, if any. *)
Definition resource_path (c : Call) : option string :=
  match c with
  | C_QIcon p | C_QPixmap p => Some p
  | _ => None
  end.

Definition resource_paths (cs : list Call) : list string :=
  omap resource_path cs.

Definition resource_set (cs : list Call) : gset string :=
  list_to_set (resource_paths cs).

(** The action object as [setupUi] leaves it before the superclass
    call, and the state handed to the superclass. *)
Definition helpAboutAction (mainWindow : ptr) (appName : string) : QObject :=
  set_text ("About " +:+ appName)
    (set_objectName "HelpAboutnykAorticAppAction" (QObject_init QAction_ mainWindow)).

Definition with_helpAboutAction (mainWindow : ptr) (q : QtState) : QtState :=
  set_heap (<[fresh (dom (heap q)) := helpAboutAction mainWindow (applicationName q)]> (heap q)) q.

(** The three widgets of the title bar as [setupUi] leaves them: the logo
    label at [l] showing [pm], the container at [t] and its layout at
    [y], under the dock widget at [k]. *)
Definition logoLabel_final (pm : QPixmap) (t : nat) : QObject :=
  set_parent (Some t)
    (set_visible true
      (set_styleSheet
         "QLabel#LogoLabel { background-color: transparent; padding: 2px; margin-right: 10px; }"
         (set_contentsMargins (mkQMargins 5 0 0 0)
            (set_alignment 129
               (set_pixmap pm
                  (set_objectName "LogoLabel" (QObject_init QLabel_ None))))))).

Definition customTitleBar_final (y k : nat) : QObject :=
  set_parent (Some k)
    (set_layout (Some y) (set_minimumHeight 25 (QObject_init QWidget_ None))).

Definition titleLayout_final (l t : nat) : QObject :=
  set_items [ItemWidget l; ItemStretch 1]
    (set_spacing 10
       (set_contentsMargins (mkQMargins 0 0 0 0) (QObject_init QHBoxLayout_ (Some t)))).

Definition logo_debug (pm : QPixmap) : list DebugItem :=
  [DText "Logo pixmap is";
   DText (if QPixmap_isNull pm then "NULL" else "valid");
   DText "with size";
   DSize (QPixmap_size pm)].

(** The entries of one run of [setupUi], in order: the action at [a], the
    Help menu at [h], the window at [m], the dock widget at [k]. *)
Definition setupUi_calls (d m a h k l t y : nat) (appName : string) (pm : QPixmap)
  : list Call :=
  [ C_new QAction_ (Some m) a;
    C_setObjectName a "HelpAboutnykAorticAppAction";
    C_setText a ("About " +:+ appName);
    C_Superclass_setupUi d (Some m);
    C_addAction h a;
    C_QIcon ":/Icons/Medium/DesktopIcon.png";
    C_setWindowIcon m (IconFile ":/Icons/Medium/DesktopIcon.png");
    C_new QLabel_ None l;
    C_setObjectName l "LogoLabel";
    C_QPixmap ":/LogoFull.png";
    C_qDebug (logo_debug pm);
    C_setPixmap l pm;
    C_setAlignment l 129;
    C_setContentsMargins l (mkQMargins 5 0 0 0);
    C_setStyleSheet l
      "QLabel#LogoLabel { background-color: transparent; padding: 2px; margin-right: 10px; }";
    C_setVisible l true;
    C_new QWidget_ None t;
    C_setMinimumHeight t 25;
    C_new QHBoxLayout_ (Some t) y;
    C_setContentsMargins y (mkQMargins 0 0 0 0);
    C_setSpacing y 10;
    C_addWidget y l;
    C_addStretch y 1;
    C_setTitleBarWidget k t ].

(** What [setupUi] needs of the superclass's [setupUi] to run to its end:
    the superclass returns a state [q1] in which the action is still
    live, the window pointer addresses a live window, and the private
    object's [HelpMenu] and [PanelDockWidget] address a live menu and a
    live dock widget. *)
Record SetupUiReady (host : Host) (d : nat) (mainWindow : ptr) (q q1 : QtState)
       (m h k : nat) (ao ho mo ko : QObject) : Prop := {
  ready_window : mainWindow = Some m;
  ready_host :
    qSlicerMainWindowPrivate_setupUi host d mainWindow (with_helpAboutAction mainWindow q)
    = Some q1;
  ready_HelpMenu : HelpMenu <$> (pimpls q1 !! d) = Some (Some h);
  ready_PanelDockWidget : PanelDockWidget <$> (pimpls q1 !! d) = Some (Some k);
  ready_action : heap q1 !! fresh (dom (heap q)) = Some ao;
  ready_action_cls : cls ao = QAction_;
  ready_menu : heap q1 !! h = Some ho;
  ready_menu_cls : cls ho = QMenu_;
  ready_win : heap q1 !! m = Some mo;
  ready_win_cls : cls mo = QMainWindow_;
  ready_dock : heap q1 !! k = Some ko;
  ready_dock_cls : cls ko = QDockWidget_
}.

(** The outcome of a run of [setupUi] that started with call log [cs] and
    application name [appName], relative to the state [q1] the
    superclass returned. *)
Record SetupUiRun (d m a h k : nat) (appName : string) (pm : QPixmap)
       (cs : list Call) (q1 : QtState) (ho mo ko : QObject)
       (w' : World) (l t y : nat) : Prop := {
  run_fresh : heap q1 !! l = None /\ heap q1 !! t = None /\ heap q1 !! y = None;
  run_distinct : l <> t /\ l <> y /\ t <> y;
  run_calls : calls w' = cs ++ setupUi_calls d m a h k l t y appName pm;
  run_pimpls : pimpls (qt w') = pimpls q1;
  run_attributes : attributes (qt w') = attributes q1;
  run_applicationName : applicationName (qt w') = applicationName q1;
  run_menu :
    heap (qt w') !! h
    = Some (set_actions (filter (fun x => x <> a) (actions ho) ++ [a]) ho);
  run_win :
    heap (qt w') !! m
    = Some (set_windowIcon (IconFile ":/Icons/Medium/DesktopIcon.png") mo);
  run_dock : heap (qt w') !! k = Some (set_titleBarWidget (Some t) ko);
  run_label : heap (qt w') !! l = Some (logoLabel_final pm t);
  run_titleBar : heap (qt w') !! t = Some (customTitleBar_final y k);
  run_layout : heap (qt w') !! y = Some (titleLayout_final l t);
  run_frame :
    forall i, i <> h -> i <> m -> i <> k -> i <> l -> i <> t -> i <> y ->
              heap (qt w') !! i = heap q1 !! i
}.

(** The entries [init] itself issues. *)
Definition init_calls (QT_VERSION : Z) (d : nat) : list Call :=
  (if (QT_VERSION_CHECK 5 7 0 <=? QT_VERSION)%Z
   then [C_setAttribute Qt_AA_UseHighDpiPixmaps] else [])
  ++ [C_Superclass_init d].

(** The entries of one run of the About slot, the dialog at [about]. *)
Definition about_calls (this about : nat) (pm : QPixmap) : list Call :=
  [ C_new qSlicerAboutDialog_ (Some this) about;
    C_QPixmap ":/Logo.png";
    C_setLogo about pm;
    C_exec about;
    C_delete about ].

(** The pointers the private object holds. *)
Definition pimpl_refs (pv : PrivateData) : list ptr :=
  [q_ptr pv; menubar pv; FileMenu pv; EditMenu pv; ViewMenu pv; LayoutMenu pv;
   HelpMenu pv; PanelDockWidget pv].

(** The menu bar and the standard menus, as the private object names
    them. *)
Definition standard_menus (pv : PrivateData) : list ptr :=
  [menubar pv; FileMenu pv; EditMenu pv; ViewMenu pv; LayoutMenu pv; HelpMenu pv].

(** The object a log entry acts on: the object created, configured,
    added or installed. *)
Definition subject (c : Call) : option nat :=
  match c with
  | C_new _ _ r => Some r
  | C_delete o => Some o
  | C_setObjectName o _ | C_setText o _ | C_setContentsMargins o _
  | C_setStyleSheet o _ | C_setVisible o _ | C_setMinimumHeight o _
  | C_setSpacing o _ => Some o
  | C_addAction _ a => Some a
  | C_setWindowIcon w _ => Some w
  | C_setPixmap l _ | C_setAlignment l _ => Some l
  | C_addWidget l _ | C_addStretch l _ => Some l
  | C_setTitleBarWidget _ w => Some w
  | C_setLogo dlg _ | C_exec dlg => Some dlg
  | _ => None
  end.

(** The four concerns the specification lists for [setupUi], for a run
    with the About action at [a], the window at [m], the logo label at
    [l], the title-bar container at [t] and its layout at [y]. *)
Inductive Concern :=
| AboutAction
| WindowIcon
| BrandingLogo
| TitleBar.

Definition concern (a m l t y : nat) (c : Call) : option Concern :=
  match c with
  | C_QIcon _ => Some WindowIcon
  | C_QPixmap _ | C_qDebug _ => Some BrandingLogo
  | _ =>
      match subject c with
      | Some s =>
          if (s =? a)%nat then Some AboutAction
          else if (s =? m)%nat then
                 match c with C_setWindowIcon _ _ => Some WindowIcon | _ => None end
          else if (s =? l)%nat then Some BrandingLogo
          else if ((s =? t) || (s =? y))%nat then Some TitleBar
          else None
      | None => None
      end
  end.

(** Two runs that differ in what the resource table holds are compared
    up to the pixmaps: [erase_world] forgets every pixmap stored in an
    object or passed in a log entry, and the text of debug lines. *)
Definition erase_obj (o : QObject) : QObject :=
  set_logo NullPixmap (set_pixmap NullPixmap o).

Definition erase_call (c : Call) : Call :=
  match c with
  | C_qDebug _ => C_qDebug []
  | C_setPixmap l _ => C_setPixmap l NullPixmap
  | C_setLogo dlg _ => C_setLogo dlg NullPixmap
  | _ => c
  end.

Definition erase_world (w : World) : World :=
  mkWorld (mkQt (erase_obj <$> heap (qt w)) (pimpls (qt w)) (attributes (qt w))
                (applicationName (qt w)))
          (map erase_call (calls w)).

Definition sim (w1 w2 : World) : Prop := erase_world w1 = erase_world w2.

(** Both runs fail, or both return, with results related by [RA] and
    states equal up to the pixmaps. *)
Definition same_outcome {A} (RA : A -> A -> Prop) (r1 r2 : option (A * World)) : Prop :=
  match r1, r2 with
  | Some (a1, w1), Some (a2, w2) => RA a1 a2 /\ sim w1 w2
  | None, None => True
  | _, _ => False
  end.

(** Total-correctness triples over [M]: the run from [w] returns, and its
    result satisfies [Q]. *)
Definition wp {A} (m : M A) (Q : A -> World -> Prop) (w : World) : Prop :=
  exists a w', m w = Some (a, w') /\ Q a w'.

(** Partial-correctness triples: what holds of every run that returns. *)
Definition wlp {A} (m : M A) (Q : A -> World -> Prop) (w : World) : Prop :=
  forall a w', m w = Some (a, w') -> Q a w'.

(** No object of the store has a dangling parent pointer. *)
Definition parents_live (hp : gmap nat QObject) : Prop :=
  forall i o p, hp !! i = Some o -> parent o = Some p -> is_Some (hp !! p).

(** The same, as a test that runs on a concrete store. *)
Definition parents_liveb (hp : gmap nat QObject) : bool :=
  forallb (fun io : nat * QObject =>
             match parent (snd io) with
             | Some p => bool_decide (is_Some (hp !! p))
             | None => true
             end)
          (map_to_list hp).

(** The About action triggered [n] times in a row: the slot runs once per
    trigger. *)
Fixpoint triggered (rcc : gmap string Image) (this : nat) (n : nat) : M unit :=
  match n with
  | O => ret tt
  | S k => on_HelpAboutnykAorticAppAction_triggered rcc this ;;; triggered rcc this k
  end.

(** ** A small host for concrete runs

    A stand-in for the host's classes, used to run the layer on concrete
    states: its [setupUi] builds the menu bar, the five standard menus
    and the panel dock widget as children of the window and records them
    in the private object. *)
Module SampleHost.

Definition alloc (c : QClass) (p : ptr) (vis : bool) (q : QtState) : nat * QtState :=
  let l := fresh (dom (heap q)) in
  (l, set_heap (<[l := set_visible vis (QObject_init c p)]> (heap q)) q).

Definition Private_ctor (object : nat) (q : QtState) : option (nat * QtState) :=
  let d := fresh (dom (pimpls q)) in
  Some (d, mkQt (heap q)
                (<[d := mkPrivate (Some object) None None None None None None None]> (pimpls q))
                (attributes q) (applicationName q)).

Definition Window_ctor (this : nat) (pimpl windowParent : ptr) (q : QtState)
  : option QtState :=
  Some (set_heap
          (<[this := set_d_ptr pimpl (QObject_init QMainWindow_ windowParent)]> (heap q))
          q).

Definition Private_init (d : nat) (q : QtState) : option QtState := Some q.

Definition Private_setupUi (d : nat) (mw : ptr) (q : QtState) : option QtState :=
  match pimpls q !! d with
  | None => None
  | Some pv =>
      let '(mb, q) := alloc QMenuBar_ mw true q in
      let '(fm, q) := alloc QMenu_ (Some mb) true q in
      let '(em, q) := alloc QMenu_ (Some mb) true q in
      let '(vm, q) := alloc QMenu_ (Some mb) true q in
      let '(lm, q) := alloc QMenu_ (Some mb) true q in
      let '(hm, q) := alloc QMenu_ (Some mb) true q in
      let '(pd, q) := alloc QDockWidget_ mw true q in
      Some (mkQt (heap q)
                 (<[d := mkPrivate (q_ptr pv) (Some mb) (Some fm) (Some em) (Some vm)
                                   (Some lm) (Some hm) (Some pd)]> (pimpls q))
                 (attributes q) (applicationName q))
  end.

Definition host : Host :=
  mkHost Private_ctor Private_init Private_setupUi Window_ctor.

(** The resource table of the concrete runs: the three images, each
    with its own size. *)
Definition rcc : gmap string Image :=
  <[":/Icons/Medium/DesktopIcon.png" := mkImage (mkQSize 64 64) 1%N]>
  (<[":/LogoFull.png" := mkImage (mkQSize 300 40) 2%N]>
   (<[":/Logo.png" := mkImage (mkQSize 128 128) 3%N]> ∅)).

(** The state before any window exists. *)
Definition start : World :=
  mkWorld (mkQt ∅ ∅ ∅ "nykAortic") [].

(** The state after the public constructor has built a window at
    address [0]. *)
Definition constructed : option (unit * World) :=
  qnykAorticAppMainWindow_ctor (QT_VERSION_CHECK 5 15 2) host 0%nat None start.

Definition world0 : World :=
  match constructed with Some (_, w) => w | None => start end.

Definition object_at (q : QtState) (l : nat) : QObject :=
  match heap q !! l with Some o => o | None => QObject_init QWidget_ None end.

Definition object_at_pimpl (q : QtState) (d : nat) : PrivateData :=
  match pimpls q !! d with
  | Some pv => pv
  | None => mkPrivate None None None None None None None None
  end.

(** The state the sample superclass returns from [setupUi] when the
    layer's [setupUi] runs on [world0]. *)
Definition q1 : QtState :=
  match Private_setupUi 0%nat (Some 0%nat) (with_helpAboutAction (Some 0%nat) (qt world0)) with
  | Some q => q
  | None => qt world0
  end.

(** The state after the layer's [setupUi] has run on [world0]. *)
Definition world1 : World :=
  match qnykAorticAppMainWindowPrivate_setupUi rcc host 0%nat (Some 0%nat) world0 with
  | Some (_, w) => w
  | None => world0
  end.

(** One session: the window is built, set up, and the About action is
    triggered once. *)
Definition session : option (unit * World) :=
  (qnykAorticAppMainWindow_ctor (QT_VERSION_CHECK 5 15 2) host 0%nat None ;;;
   qnykAorticAppMainWindowPrivate_setupUi rcc host 0%nat (Some 0%nat) ;;;
   on_HelpAboutnykAorticAppAction_triggered rcc 0%nat) start.

End SampleHost.

(** * Reasoning rules *)

Lemma fresh_heap (hp : gmap nat QObject) : hp !! fresh (dom hp) = None.
Proof. apply not_elem_of_dom, is_fresh. Qed.

(** ** Runs that return: total correctness *)

Lemma wp_bind {A B} (m : M A) (k : A -> M B) Q w :
  wp m (fun a w1 => wp (k a) Q w1) w -> wp (bind m k) Q w.
Proof.
  intros (a & w1 & Hm & b & w2 & Hk & HQ).
  exists b, w2. unfold bind. rewrite Hm. auto.
Qed.

Lemma wp_ret {A} (a : A) (Q : A -> World -> Prop) w : Q a w -> wp (ret a) Q w.
Proof. intros HQ. exists a, w. auto. Qed.

Lemma wp_log c (Q : unit -> World -> Prop) w :
  Q tt (mkWorld (qt w) (calls w ++ [c])) -> wp (log c) Q w.
Proof. intros HQ. eexists _, _. split; [reflexivity | exact HQ]. Qed.

Lemma wp_new c p (Q : nat -> World -> Prop) w :
  (forall l, heap (qt w) !! l = None ->
     Q l (mkWorld (set_heap (<[l := QObject_init c p]> (heap (qt w))) (qt w))
                  (calls w ++ [C_new c p l]))) ->
  wp (new c p) Q w.
Proof. intros HQ. eexists _, _. split; [reflexivity |]. apply HQ, fresh_heap. Qed.

Lemma wp_upd c l f o (Q : unit -> World -> Prop) w :
  heap (qt w) !! l = Some o -> cls o = c ->
  Q tt (mkWorld (set_heap (<[l := f o]> (heap (qt w))) (qt w)) (calls w)) ->
  wp (upd c l f) Q w.
Proof.
  intros Hl Hc HQ. eexists _, _. split; [| exact HQ].
  unfold upd. rewrite Hl. rewrite decide_True by assumption. reflexivity.
Qed.

Lemma wp_deref c l o (Q : QObject -> World -> Prop) w :
  heap (qt w) !! l = Some o -> cls o = c -> Q o w -> wp (deref c l) Q w.
Proof.
  intros Hl Hc HQ. eexists _, _. split; [| exact HQ].
  unfold deref. rewrite Hl. rewrite decide_True by assumption. reflexivity.
Qed.

Lemma wp_field d f l (Q : nat -> World -> Prop) w :
  f <$> (pimpls (qt w) !! d) = Some (Some l) -> Q l w -> wp (field d f) Q w.
Proof.
  intros Hd HQ. eexists _, _. split; [| exact HQ].
  unfold field. destruct (pimpls (qt w) !! d) as [pv|]; [|discriminate].
  cbn in Hd. injection Hd as ->. reflexivity.
Qed.

Lemma wp_call_host c f q (Q : unit -> World -> Prop) w :
  f (qt w) = Some q -> Q tt (mkWorld q (calls w ++ [c])) -> wp (call_host c f) Q w.
Proof.
  intros Hf HQ. eexists _, _. split; [| exact HQ].
  unfold call_host. rewrite Hf. reflexivity.
Qed.

Lemma wp_delete o (Q : unit -> World -> Prop) w :
  Q tt (mkWorld (set_heap (base.delete o (heap (qt w))) (qt w)) (calls w ++ [C_delete o])) ->
  wp (delete o) Q w.
Proof. intros HQ. eexists _, _. split; [reflexivity | exact HQ]. Qed.

Lemma wp_setAttribute a (Q : unit -> World -> Prop) w :
  Q tt (mkWorld (set_attributes ({[a]} ∪ attributes (qt w)) (qt w))
                (calls w ++ [C_setAttribute a])) ->
  wp (QApplication_setAttribute a) Q w.
Proof. intros HQ. eexists _, _. split; [reflexivity | exact HQ]. Qed.

Lemma wp_applicationName app (Q : string -> World -> Prop) w :
  Q (applicationName (qt w)) w -> wp (QCoreApplication_applicationName app) Q w.
Proof. intros HQ. eexists _, _. split; [reflexivity | exact HQ]. Qed.

Ltac wp_simpl :=
  cbn [qt calls heap pimpls attributes applicationName set_heap set_attributes].

Ltac wp_simpl_in H :=
  cbn [qt calls heap pimpls attributes applicationName set_heap set_attributes] in H.

(** A lookup in a store built by insertions over known entries. *)
Ltac wp_lookup :=
  wp_simpl;
  first [ eassumption
        | apply lookup_insert_eq
        | rewrite lookup_insert_ne by congruence; wp_lookup ].

Ltac head_of t :=
  lazymatch t with
  | ?f _ => head_of f
  | _ => constr:(t)
  end.

Ltac split_fresh H :=
  repeat (let H' := fresh "Hne" in apply lookup_insert_None in H as [H H']).

(** One step of forward execution. *)
Ltac wp_step :=
  wp_simpl;
  lazymatch goal with
  | |- wp (bind _ _) _ _ => apply wp_bind
  | |- wp (ret _) _ _ => apply wp_ret
  | |- wp (log _) _ _ => apply wp_log
  | |- wp (new _ _) _ _ =>
      let l := fresh "l" in
      let Hl := fresh "Hl" in
      apply wp_new; intros l Hl; wp_simpl; wp_simpl_in Hl; split_fresh Hl
  | |- wp (upd _ _ _) _ _ =>
      eapply wp_upd; [wp_lookup | cbn; first [reflexivity | eassumption] |]
  | |- wp (deref _ _) _ _ =>
      eapply wp_deref; [wp_lookup | cbn; first [reflexivity | eassumption] |]
  | |- wp (field _ _) _ _ => eapply wp_field; [wp_simpl; eassumption |]
  | |- wp (call_host _ _) _ _ =>
      eapply wp_call_host; [wp_simpl; rewrite ?insert_insert_eq; eassumption |]
  | |- wp (delete _) _ _ => apply wp_delete
  | |- wp (nonnull (Some _)) _ _ => apply wp_ret
  | |- wp (QApplication_setAttribute _) _ _ => apply wp_setAttribute
  | |- wp (QCoreApplication_applicationName _) _ _ => apply wp_applicationName
  | |- wp ?m _ _ => let hd := head_of m in unfold hd
  end.

(** ** Every run that returns: partial correctness *)

Lemma wlp_bind {A B} (m : M A) (k : A -> M B) Q w :
  wlp m (fun a w1 => wlp (k a) Q w1) w -> wlp (bind m k) Q w.
Proof.
  intros Hm b w2. unfold bind.
  destruct (m w) as [[a w1]|] eqn:E; [|discriminate].
  intros Hk. exact (Hm a w1 E b w2 Hk).
Qed.

Lemma wlp_ret {A} (a : A) (Q : A -> World -> Prop) w : Q a w -> wlp (ret a) Q w.
Proof. unfold ret. intros HQ a' w' [= <- <-]. exact HQ. Qed.

Lemma wlp_log c (Q : unit -> World -> Prop) w :
  Q tt (mkWorld (qt w) (calls w ++ [c])) -> wlp (log c) Q w.
Proof. unfold log. intros HQ a' w' [= <- <-]. exact HQ. Qed.

Lemma wlp_new c p (Q : nat -> World -> Prop) w :
  (forall l, l = fresh (dom (heap (qt w))) -> heap (qt w) !! l = None ->
     Q l (mkWorld (set_heap (<[l := QObject_init c p]> (heap (qt w))) (qt w))
                  (calls w ++ [C_new c p l]))) ->
  wlp (new c p) Q w.
Proof. unfold new. intros HQ a' w' [= <- <-]. apply HQ; [reflexivity | apply fresh_heap]. Qed.

Lemma wlp_upd c l f (Q : unit -> World -> Prop) w :
  (forall o, heap (qt w) !! l = Some o -> cls o = c ->
     Q tt (mkWorld (set_heap (<[l := f o]> (heap (qt w))) (qt w)) (calls w))) ->
  wlp (upd c l f) Q w.
Proof.
  intros HQ a' w'. unfold upd.
  destruct (heap (qt w) !! l) as [o|]; [|discriminate].
  destruct (decide (cls o = c)); [|discriminate].
  intros [= <- <-]. apply HQ; auto.
Qed.

Lemma wlp_deref c l (Q : QObject -> World -> Prop) w :
  (forall o, heap (qt w) !! l = Some o -> cls o = c -> Q o w) ->
  wlp (deref c l) Q w.
Proof.
  intros HQ a' w'. unfold deref.
  destruct (heap (qt w) !! l) as [o|]; [|discriminate].
  destruct (decide (cls o = c)); [|discriminate].
  intros [= <- <-]. apply HQ; auto.
Qed.

Lemma wlp_field d f (Q : nat -> World -> Prop) w :
  (forall l, f <$> (pimpls (qt w) !! d) = Some (Some l) -> Q l w) ->
  wlp (field d f) Q w.
Proof.
  intros HQ a' w'. unfold field.
  destruct (pimpls (qt w) !! d) as [pv|]; [|discriminate].
  destruct (f pv) as [l|] eqn:E; [|discriminate].
  intros [= <- <-]. apply HQ. cbn. rewrite E. reflexivity.
Qed.

Lemma wlp_call_host c f (Q : unit -> World -> Prop) w :
  (forall q, f (qt w) = Some q -> Q tt (mkWorld q (calls w ++ [c]))) ->
  wlp (call_host c f) Q w.
Proof.
  intros HQ a' w'. unfold call_host.
  destruct (f (qt w)) as [q|]; [|discriminate].
  intros [= <- <-]. apply HQ. reflexivity.
Qed.

Lemma wlp_nonnull {A} (p : option A) (Q : A -> World -> Prop) w :
  (forall a, p = Some a -> Q a w) -> wlp (nonnull p) Q w.
Proof.
  intros HQ a' w'. destruct p as [a|]; [|discriminate].
  intros [= <- <-]. apply HQ. reflexivity.
Qed.

Lemma wlp_applicationName app (Q : string -> World -> Prop) w :
  Q (applicationName (qt w)) w -> wlp (QCoreApplication_applicationName app) Q w.
Proof. intros HQ a' w' [= <- <-]. exact HQ. Qed.

Ltac simpl_lookup H :=
  repeat first [ rewrite lookup_insert_eq in H
               | rewrite lookup_insert_ne in H by congruence ];
  try (injection H as <-).

(** A lookup through insertions of objects of another class reaches the
    store underneath. *)
Ltac peel H Hc :=
  repeat (rewrite lookup_insert in H; case_decide;
          [injection H as <-; exfalso; cbn in Hc; congruence |]).

Ltac wlp_step :=
  wp_simpl;
  lazymatch goal with
  | |- wlp (bind _ _) _ _ => apply wlp_bind
  | |- wlp (ret _) _ _ => apply wlp_ret
  | |- wlp (log _) _ _ => apply wlp_log
  | |- wlp (new _ _) _ _ =>
      let l := fresh "l" in
      let Hl := fresh "Hl" in
      apply wlp_new; intros l _ Hl; wp_simpl; wp_simpl_in Hl; split_fresh Hl
  | |- wlp (upd _ _ _) _ _ =>
      let o := fresh "o" in
      let Ho := fresh "Ho" in
      let Hc := fresh "Hc" in
      apply wlp_upd; intros o Ho Hc; wp_simpl_in Ho; simpl_lookup Ho
  | |- wlp (deref _ _) _ _ =>
      let o := fresh "o" in
      let Ho := fresh "Ho" in
      let Hc := fresh "Hc" in
      apply wlp_deref; intros o Ho Hc; wp_simpl_in Ho; simpl_lookup Ho
  | |- wlp (field _ _) _ _ =>
      let l := fresh "p" in
      let Hf := fresh "Hf" in
      apply wlp_field; intros l Hf; wp_simpl_in Hf
  | |- wlp (call_host _ _) _ _ =>
      let q := fresh "q" in
      let Hq := fresh "Hq" in
      apply wlp_call_host; intros q Hq; wp_simpl_in Hq
  | |- wlp (nonnull _) _ _ =>
      let a := fresh "m" in
      let Ha := fresh "Hm" in
      apply wlp_nonnull; intros a Ha
  | |- wlp (QCoreApplication_applicationName _) _ _ => apply wlp_applicationName
  | |- wlp ?m _ _ => let hd := head_of m in unfold hd
  end.

(** ** Two runs side by side *)

Lemma sim_refl w : sim w w.
Proof. reflexivity. Qed.

Lemma sim_parts w1 w2 :
  sim w1 w2 ->
  erase_obj <$> heap (qt w1) = erase_obj <$> heap (qt w2) /\
  pimpls (qt w1) = pimpls (qt w2) /\
  attributes (qt w1) = attributes (qt w2) /\
  applicationName (qt w1) = applicationName (qt w2) /\
  map erase_call (calls w1) = map erase_call (calls w2).
Proof. unfold sim, erase_world. intros [= H1 H2 H3 H4 H5]. auto. Qed.

Lemma sim_lookup w1 w2 l :
  sim w1 w2 -> erase_obj <$> (heap (qt w1) !! l) = erase_obj <$> (heap (qt w2) !! l).
Proof.
  intros Hs. apply sim_parts in Hs as (Hh & _).
  rewrite <- !lookup_fmap, Hh. reflexivity.
Qed.

Lemma erase_obj_fields o1 o2 :
  erase_obj o1 = erase_obj o2 ->
  cls o1 = cls o2 /\ parent o1 = parent o2 /\ items o1 = items o2 /\
  actions o1 = actions o2.
Proof. unfold erase_obj, set_logo, set_pixmap. cbn. intros [=]. auto. Qed.

Ltac unfold_setters :=
  unfold erase_obj, set_parent, set_objectName, set_visible, set_windowIcon,
    set_minimumHeight, set_contentsMargins, set_styleSheet, set_actions, set_layout,
    set_text, set_pixmap, set_alignment, set_items, set_spacing, set_titleBarWidget,
    set_logo, set_d_ptr.

Ltac solve_erase :=
  let o1 := fresh "o1" in
  let o2 := fresh "o2" in
  let Ho := fresh "Ho" in
  intros o1 o2 Ho;
  unfold erase_obj, set_logo, set_pixmap in Ho; cbn in Ho;
  injection Ho as ?;
  unfold_setters;
  cbn [cls parent objectName visible windowIcon minimumHeight contentsMargins styleSheet
       actions layout text pixmap alignment items spacing titleBarWidget logo d_ptr];
  f_equal; first [assumption | reflexivity | congruence].

Lemma so_bind {A B} (RA : A -> A -> Prop) (RB : B -> B -> Prop)
      (m1 m2 : M A) (k1 k2 : A -> M B) w1 w2 :
  same_outcome RA (m1 w1) (m2 w2) ->
  (forall a1 a2 w1' w2', RA a1 a2 -> sim w1' w2' -> same_outcome RB (k1 a1 w1') (k2 a2 w2')) ->
  same_outcome RB (bind m1 k1 w1) (bind m2 k2 w2).
Proof.
  unfold bind, same_outcome at 1.
  destruct (m1 w1) as [[a1 w1']|], (m2 w2) as [[a2 w2']|]; try tauto.
  intros [Ha Hs] Hk. apply Hk; assumption.
Qed.

Lemma so_same_bind {A B} (RB : B -> B -> Prop) (m : M A) (k1 k2 : A -> M B) w :
  (forall a w', m w = Some (a, w') -> same_outcome RB (k1 a w') (k2 a w')) ->
  same_outcome RB (bind m k1 w) (bind m k2 w).
Proof.
  unfold bind. destruct (m w) as [[a w']|]; [|intros _; exact I].
  intros Hk. apply Hk. reflexivity.
Qed.

Lemma so_ret {A} (RA : A -> A -> Prop) a1 a2 w1 w2 :
  RA a1 a2 -> sim w1 w2 -> same_outcome RA (ret a1 w1) (ret a2 w2).
Proof. intros. split; assumption. Qed.

Lemma so_log c1 c2 w1 w2 :
  erase_call c1 = erase_call c2 -> sim w1 w2 -> same_outcome eq (log c1 w1) (log c2 w2).
Proof.
  intros Hc Hs. split; [reflexivity|].
  apply sim_parts in Hs as (Hh & Hp & Ha & Hn & Hcs).
  unfold sim, erase_world. cbn. rewrite !map_app, Hh, Hp, Ha, Hn, Hcs. cbn. rewrite Hc.
  reflexivity.
Qed.

Lemma so_new c p w1 w2 :
  sim w1 w2 -> same_outcome eq (new c p w1) (new c p w2).
Proof.
  intros Hs. apply sim_parts in Hs as (Hh & Hp & Ha & Hn & Hcs).
  assert (Hd : dom (heap (qt w1)) = dom (heap (qt w2))).
  { rewrite <- (dom_fmap_L erase_obj (heap (qt w1))), Hh. apply dom_fmap_L. }
  unfold new. rewrite Hd. split; [reflexivity|].
  unfold sim, erase_world. cbn. rewrite !fmap_insert, !map_app, Hh, Hp, Ha, Hn, Hcs.
  reflexivity.
Qed.

Lemma so_upd c l f1 f2 w1 w2 :
  (forall o1 o2, erase_obj o1 = erase_obj o2 -> erase_obj (f1 o1) = erase_obj (f2 o2)) ->
  sim w1 w2 -> same_outcome eq (upd c l f1 w1) (upd c l f2 w2).
Proof.
  intros Hf Hs. pose proof (sim_lookup _ _ l Hs) as Hl.
  apply sim_parts in Hs as (Hh & Hp & Ha & Hn & Hcs).
  unfold upd.
  destruct (heap (qt w1) !! l) as [o1|], (heap (qt w2) !! l) as [o2|];
    try discriminate Hl; [|exact I].
  assert (Ho : erase_obj o1 = erase_obj o2) by (cbn in Hl; congruence).
  destruct (erase_obj_fields _ _ Ho) as (Hc & _).
  rewrite <- Hc. destruct (decide (cls o1 = c)); [|exact I].
  split; [reflexivity|].
  unfold sim, erase_world. cbn. rewrite !fmap_insert, Hh, Hp, Ha, Hn, Hcs, (Hf _ _ Ho).
  reflexivity.
Qed.

Lemma so_deref c l w1 w2 :
  sim w1 w2 ->
  same_outcome (fun o1 o2 => erase_obj o1 = erase_obj o2) (deref c l w1) (deref c l w2).
Proof.
  intros Hs. pose proof (sim_lookup _ _ l Hs) as Hl.
  unfold deref.
  destruct (heap (qt w1) !! l) as [o1|], (heap (qt w2) !! l) as [o2|];
    try discriminate Hl; [|exact I].
  assert (Ho : erase_obj o1 = erase_obj o2) by (cbn in Hl; congruence).
  destruct (erase_obj_fields _ _ Ho) as (Hc & _).
  rewrite <- Hc. destruct (decide (cls o1 = c)); [|exact I].
  split; assumption.
Qed.

Lemma so_field d f w1 w2 :
  sim w1 w2 -> same_outcome eq (field d f w1) (field d f w2).
Proof.
  intros Hs. pose proof Hs as Hs'. apply sim_parts in Hs' as (_ & Hp & _).
  unfold field. rewrite Hp.
  destruct (pimpls (qt w2) !! d) as [pv|]; [|exact I].
  destruct (f pv); [|exact I].
  split; [reflexivity | assumption].
Qed.

Lemma so_delete o w1 w2 :
  sim w1 w2 -> same_outcome eq (delete o w1) (delete o w2).
Proof.
  intros Hs. apply sim_parts in Hs as (Hh & Hp & Ha & Hn & Hcs).
  split; [reflexivity|].
  unfold sim, erase_world. cbn. rewrite !fmap_delete, !map_app, Hh, Hp, Ha, Hn, Hcs.
  reflexivity.
Qed.

Ltac so_intros :=
  let a1 := fresh "a" in
  let a2 := fresh "a" in
  let w1 := fresh "w" in
  let w2 := fresh "w" in
  let Ha := fresh "Ha" in
  let Hs := fresh "Hs" in
  intros a1 a2 w1 w2 Ha Hs; cbn beta;
  first [ subst a2
        | destruct (erase_obj_fields _ _ Ha) as (? & ? & ? & ?) ].

(** One step of the lock-step comparison of two runs. *)
Ltac so_step :=
  lazymatch goal with
  | |- same_outcome _ (bind _ _ _) (bind _ _ _) =>
      eapply so_bind; [solve [repeat so_step] | so_intros]
  | |- same_outcome _ (ret _ _) (ret _ _) => apply (so_ret eq); [reflexivity | assumption]
  | |- same_outcome _ (log _ _) (log _ _) => apply so_log; [reflexivity | assumption]
  | |- same_outcome _ (new _ _ _) (new _ _ _) => apply so_new; assumption
  | |- same_outcome _ (upd _ _ _ _) (upd _ _ _ _) => apply so_upd; [solve_erase | assumption]
  | |- same_outcome _ (deref _ _ _) (deref _ _ _) => apply so_deref; assumption
  | |- same_outcome _ (field _ _ _) (field _ _ _) => apply so_field; assumption
  | |- same_outcome _ (delete _ _) (delete _ _) => apply so_delete; assumption
  | |- same_outcome _ (?m1 _) (?m2 _) =>
      let h1 := head_of m1 in unfold h1
  end.

Lemma so_QPixmap_fromFile rcc1 rcc2 path w1 w2 :
  sim w1 w2 ->
  same_outcome (fun _ _ => True) (QPixmap_fromFile rcc1 path w1) (QPixmap_fromFile rcc2 path w2).
Proof.
  intros Hs. unfold QPixmap_fromFile.
  eapply so_bind; [apply so_log; [reflexivity | exact Hs]|].
  intros [] [] w1' w2' _ Hs'. apply so_ret; [exact I | exact Hs'].
Qed.

(** * The entry points *)

(** ** [setupUi] *)

Lemma setupUi_exec rcc host d mainWindow w q1 m h k ao ho mo ko :
  SetupUiReady host d mainWindow (qt w) q1 m h k ao ho mo ko ->
  exists w' l t y,
    qnykAorticAppMainWindowPrivate_setupUi rcc host d mainWindow w = Some (tt, w') /\
    SetupUiRun d m (fresh (dom (heap (qt w)))) h k (applicationName (qt w))
               (load rcc ":/LogoFull.png") (calls w) q1 ho mo ko w' l t y.
Proof.
  intros [-> Hhost Hh Hk Ha Hac Hho Hhc Hmo Hmc Hko Hkc].
  cut (wp (qnykAorticAppMainWindowPrivate_setupUi rcc host d (Some m))
          (fun _ w' => exists l t y,
               SetupUiRun d m (fresh (dom (heap (qt w)))) h k (applicationName (qt w))
                          (load rcc ":/LogoFull.png") (calls w) q1 ho mo ko w' l t y) w).
  { intros ([] & w' & Hrun & l & t & y & HR). exists w', l, t, y. auto. }
  unfold qnykAorticAppMainWindowPrivate_setupUi.
  do 3 wp_step.
  apply wp_bind. eexists _, _. split; [reflexivity|].
  repeat wp_step.
  exists l, l0, l1.
  split; wp_simpl.
  - auto.
  - repeat split; congruence.
  - rewrite <- !app_assoc. reflexivity.
  - reflexivity.
  - reflexivity.
  - reflexivity.
  - wp_lookup.
  - wp_lookup.
  - wp_lookup.
  - wp_lookup.
  - wp_lookup.
  - wp_lookup.
  - intros i ? ? ? ? ? ?. rewrite !lookup_insert_ne by congruence. reflexivity.
Qed.

(** Conversely, a run of [setupUi] returns only if the superclass left it
    able to. *)
Lemma setupUi_inv rcc host d mainWindow w :
  wlp (qnykAorticAppMainWindowPrivate_setupUi rcc host d mainWindow)
      (fun _ _ => exists q1 m h k ao ho mo ko,
           SetupUiReady host d mainWindow (qt w) q1 m h k ao ho mo ko) w.
Proof.
  unfold qnykAorticAppMainWindowPrivate_setupUi.
  do 3 wlp_step.
  apply wlp_bind. apply wlp_new. intros a -> _.
  repeat wlp_step.
  rewrite !insert_insert_eq in Hq.
  peel Ho1 Hc3.
  match goal with
  | H : _ !! p0 = Some ?o, Hc : cls ?o = QDockWidget_ |- _ => peel H Hc
  end.
  exists q, m, p, p0, o, o0, o1, o2.
  split; assumption.
Qed.

(** X1.  [setupUi] returns exactly when the superclass's [setupUi]
    returns on the state that holds the new action and leaves the
    action live, the window pointer non-null and addressing a live
    window, and the private object's [HelpMenu] and [PanelDockWidget]
    addressing a live menu and a live dock widget. *)
Lemma setupUi_returns_iff rcc host d mainWindow w :
  is_Some (qnykAorticAppMainWindowPrivate_setupUi rcc host d mainWindow w)
  <-> exists q1 m h k ao ho mo ko,
        SetupUiReady host d mainWindow (qt w) q1 m h k ao ho mo ko.
Proof.
  split.
  - intros [[u w'] Hrun]. exact (setupUi_inv rcc host d mainWindow w u w' Hrun).
  - intros (q1 & m & h & k & ao & ho & mo & ko & HR).
    destruct (setupUi_exec rcc _ _ _ _ _ _ _ _ _ _ _ _ HR) as (w' & l & t & y & Hrun & _).
    rewrite Hrun. eexists. reflexivity.
Qed.

Lemma with_helpAboutAction_lookup mainWindow q :
  heap (with_helpAboutAction mainWindow q) !! fresh (dom (heap q))
  = Some (helpAboutAction mainWindow (applicationName q)).
Proof. unfold with_helpAboutAction. cbn. apply lookup_insert_eq. Qed.

Lemma with_helpAboutAction_frame mainWindow q i :
  i <> fresh (dom (heap q)) ->
  heap (with_helpAboutAction mainWindow q) !! i = heap q !! i.
Proof. intros Hi. unfold with_helpAboutAction. cbn. apply lookup_insert_ne. congruence. Qed.

Lemma filter_ne_count (a : nat) (xs : list nat) :
  length (filter (fun x => x = a) (filter (fun x => x <> a) xs ++ [a])) = 1%nat.
Proof.
  rewrite filter_app, length_app.
  replace (filter (fun x => x = a) (filter (fun x => x <> a) xs)) with (@nil nat).
  - cbn. rewrite decide_True by reflexivity. reflexivity.
  - symmetry. induction xs as [|x xs IH]; [reflexivity|].
    cbn. destruct (decide (x <> a)) as [Hne|He]; cbn.
    + rewrite decide_False by assumption. exact IH.
    + exact IH.
Qed.

Lemma issued_app {A} (m : M A) w a w' cs :
  m w = Some (a, w') -> calls w' = calls w ++ cs -> issued m w = Some cs.
Proof.
  intros Hm Hc. unfold issued. rewrite Hm, Hc, drop_app_length. reflexivity.
Qed.

Lemma setupUi_issued rcc host d mainWindow w q1 m h k ao ho mo ko :
  SetupUiReady host d mainWindow (qt w) q1 m h k ao ho mo ko ->
  exists l t y,
    issued (qnykAorticAppMainWindowPrivate_setupUi rcc host d mainWindow) w
    = Some (setupUi_calls d m (fresh (dom (heap (qt w)))) h k l t y
                          (applicationName (qt w)) (load rcc ":/LogoFull.png")).
Proof.
  intros HR.
  destruct (setupUi_exec rcc _ _ _ _ _ _ _ _ _ _ _ _ HR) as (w' & l & t & y & Hrun & R).
  exists l, t, y. eapply issued_app; [exact Hrun|]. apply (run_calls _ _ _ _ _ _ _ _ _ _ _ _ _ _ _ _ R).
Qed.

Lemma setupUi_same_outcome rcc1 rcc2 host d mainWindow w :
  same_outcome eq
    (qnykAorticAppMainWindowPrivate_setupUi rcc1 host d mainWindow w)
    (qnykAorticAppMainWindowPrivate_setupUi rcc2 host d mainWindow w).
Proof.
  unfold qnykAorticAppMainWindowPrivate_setupUi.
  repeat (apply so_same_bind; intros ? ? _; cbn beta).
  eapply so_bind; [apply so_QPixmap_fromFile, sim_refl|].
  intros pm1 pm2 w1 w2 _ Hs. cbn beta.
  repeat so_step.
Qed.

(** ** The About slot *)

Lemma about_exec rcc this w :
  exists w',
    on_HelpAboutnykAorticAppAction_triggered rcc this w = Some (tt, w') /\
    calls w' = calls w ++ about_calls this (fresh (dom (heap (qt w)))) (load rcc ":/Logo.png").
Proof.
  cut (wp (on_HelpAboutnykAorticAppAction_triggered rcc this)
          (fun _ w' => calls w' = calls w ++ about_calls this (fresh (dom (heap (qt w))))
                                                         (load rcc ":/Logo.png")) w).
  { intros ([] & w' & Hrun & Hc). exists w'. auto. }
  unfold on_HelpAboutnykAorticAppAction_triggered.
  apply wp_bind. eexists _, _. split; [reflexivity|].
  repeat wp_step.
  wp_simpl. rewrite <- !app_assoc. reflexivity.
Qed.

Lemma about_issued rcc this w :
  issued (on_HelpAboutnykAorticAppAction_triggered rcc this) w
  = Some (about_calls this (fresh (dom (heap (qt w)))) (load rcc ":/Logo.png")).
Proof.
  destruct (about_exec rcc this w) as (w' & Hrun & Hc).
  eapply issued_app; eassumption.
Qed.

Lemma about_same_outcome rcc1 rcc2 this w :
  same_outcome eq
    (on_HelpAboutnykAorticAppAction_triggered rcc1 this w)
    (on_HelpAboutnykAorticAppAction_triggered rcc2 this w).
Proof.
  unfold on_HelpAboutnykAorticAppAction_triggered.
  apply so_same_bind; intros about w0 _; cbn beta.
  eapply so_bind; [apply so_QPixmap_fromFile, sim_refl|].
  intros pm1 pm2 w1 w2 _ Hs. cbn beta.
  repeat so_step.
Qed.

(** ** [init] and the constructors *)

Lemma lor_shiftl_add a b n :
  0 <= n -> 0 <= b < 2 ^ n -> Z.lor (Z.shiftl a n) b = a * 2 ^ n + b.
Proof.
  intros Hn Hb.
  rewrite <- Z.shiftl_mul_pow2 by lia.
  rewrite <- Z.add_lor_land.
  replace (Z.land (Z.shiftl a n) b) with 0; [lia|].
  symmetry. apply Z.bits_inj'. intros i Hi.
  rewrite Z.land_spec, Z.bits_0.
  destruct (Z.lt_ge_cases i n) as [Hlt|Hge].
  - rewrite Z.shiftl_spec_low by lia. reflexivity.
  - replace (Z.testbit b i) with false; [apply andb_false_r|].
    symmetry. apply Z.testbit_false; [lia|].
    rewrite Z.div_small; [reflexivity|].
    split; [lia|].
    apply Z.lt_le_trans with (2 ^ n); [lia|].
    apply Z.pow_le_mono_r; lia.
Qed.

Lemma QT_VERSION_CHECK_value major minor patch :
  0 <= minor < 256 -> 0 <= patch < 256 ->
  QT_VERSION_CHECK major minor patch = major * 65536 + minor * 256 + patch.
Proof.
  intros Hm Hp. unfold QT_VERSION_CHECK.
  rewrite (lor_shiftl_add major (Z.shiftl minor 8) 16);
    [| lia | rewrite Z.shiftl_mul_pow2 by lia;
             change (2 ^ 16) with 65536; change (2 ^ 8) with 256; lia].
  rewrite Z.shiftl_mul_pow2 by lia.
  replace (major * 2 ^ 16 + minor * 2 ^ 8) with (Z.shiftl (major * 256 + minor) 8)
    by (rewrite Z.shiftl_mul_pow2 by lia;
        change (2 ^ 16) with 65536; change (2 ^ 8) with 256; lia).
  rewrite lor_shiftl_add by (change (2 ^ 8) with 256; lia).
  change (2 ^ 8) with 256. lia.
Qed.

Lemma QT_VERSION_CHECK_5_7 major minor patch :
  0 <= major -> 0 <= minor < 256 -> 0 <= patch < 256 ->
  (QT_VERSION_CHECK 5 7 0 <= QT_VERSION_CHECK major minor patch
   <-> 5 < major \/ (major = 5 /\ 7 <= minor)).
Proof.
  intros HM Hm Hp.
  rewrite (QT_VERSION_CHECK_value major minor patch) by assumption.
  change (QT_VERSION_CHECK 5 7 0) with 329472. lia.
Qed.

Lemma init_run QT_VERSION host d w :
  qnykAorticAppMainWindowPrivate_init QT_VERSION host d w
  = match qSlicerMainWindowPrivate_init host d
            (if (QT_VERSION_CHECK 5 7 0 <=? QT_VERSION)%Z
             then set_attributes ({[Qt_AA_UseHighDpiPixmaps]} ∪ attributes (qt w)) (qt w)
             else qt w) with
    | Some q' => Some (tt, mkWorld q' (calls w ++ init_calls QT_VERSION d))
    | None => None
    end.
Proof.
  unfold qnykAorticAppMainWindowPrivate_init, init_calls, bind.
  destruct (QT_VERSION_CHECK 5 7 0 <=? QT_VERSION)%Z.
  - unfold QApplication_setAttribute, call_host. cbn [qt calls].
    destruct (qSlicerMainWindowPrivate_init host d _); [|reflexivity].
    rewrite <- app_assoc. reflexivity.
  - unfold ret, call_host.
    destruct (qSlicerMainWindowPrivate_init host d _); reflexivity.
Qed.

Lemma init_issued QT_VERSION host d w tr :
  issued (qnykAorticAppMainWindowPrivate_init QT_VERSION host d) w = Some tr ->
  tr = init_calls QT_VERSION d.
Proof.
  unfold issued. rewrite init_run.
  destruct (qSlicerMainWindowPrivate_init host d _); [|discriminate].
  cbn [calls]. rewrite drop_app_length. congruence.
Qed.

Lemma ctor_issued QT_VERSION host this windowParent w tr :
  issued (qnykAorticAppMainWindow_ctor QT_VERSION host this windowParent) w = Some tr ->
  exists d d',
    tr = [C_Superclass_Private_ctor this d; C_Superclass_ctor this (Some d) windowParent]
         ++ init_calls QT_VERSION d'.
Proof.
  unfold issued, qnykAorticAppMainWindow_ctor, qnykAorticAppMainWindowPrivate_ctor,
    bind, call_host_new, call_host, d_func, bind, deref, nonnull.
  destruct (qSlicerMainWindowPrivate_ctor host this (qt w)) as [[d qa]|]; [|discriminate].
  cbn [qt calls].
  destruct (qSlicerMainWindow_ctor host this (Some d) windowParent qa) as [qb|]; [|discriminate].
  cbn [qt calls].
  destruct (heap qb !! this) as [o|]; [|discriminate].
  destruct (decide (cls o = QMainWindow_)); [|discriminate].
  destruct (d_ptr o) as [d'|]; [|discriminate].
  unfold ret. rewrite init_run. cbn [qt calls].
  destruct (qSlicerMainWindowPrivate_init host d' _) as [qc|]; [|discriminate].
  cbn [calls]. rewrite <- !app_assoc, drop_app_length. intros [= <-].
  exists d, d'. reflexivity.
Qed.

Lemma init_calls_resources QT_VERSION d : resource_paths (init_calls QT_VERSION d) = [].
Proof. unfold init_calls. destruct (_ <=? _)%Z; reflexivity. Qed.

(** * The claims *)

Ltac sample_ready := split; vm_compute; reflexivity.

(** C1.  When [setupUi] runs over a superclass that leaves the action
    object as it received it, it finishes; the state handed to the
    superclass already holds the new action at [a], named
    HelpAboutnykAorticAppAction, with text About followed by the
    application name and the window as parent, and nothing else of the
    state has changed by then; afterwards the Help menu's action list is
    the superclass's list with [a] put last, so [a] is the one action
    added and it occurs once; and the log shows creation, naming and
    text before the superclass call and [addAction] right after it. *)
Theorem C1_setupUi_appends_about_action
        rcc host d mainWindow w q1 m h k ho mo ko :
  SetupUiReady host d mainWindow (qt w) q1 m h k
               (helpAboutAction mainWindow (applicationName (qt w))) ho mo ko ->
  exists w' ho' ao' rest,
    qnykAorticAppMainWindowPrivate_setupUi rcc host d mainWindow w = Some (tt, w') /\
    heap (qt w) !! fresh (dom (heap (qt w))) = None /\
    heap (with_helpAboutAction mainWindow (qt w)) !! fresh (dom (heap (qt w)))
      = Some (helpAboutAction mainWindow (applicationName (qt w))) /\
    (forall i, i <> fresh (dom (heap (qt w))) ->
               heap (with_helpAboutAction mainWindow (qt w)) !! i = heap (qt w) !! i) /\
    heap (qt w') !! h = Some ho' /\
    actions ho' = filter (fun x => x <> fresh (dom (heap (qt w)))) (actions ho)
                  ++ [fresh (dom (heap (qt w)))] /\
    (forall x, x ∈ actions ho' <-> x ∈ actions ho \/ x = fresh (dom (heap (qt w)))) /\
    length (filter (fun x => x = fresh (dom (heap (qt w)))) (actions ho')) = 1%nat /\
    (fresh (dom (heap (qt w))) ∉ actions ho ->
     actions ho' = actions ho ++ [fresh (dom (heap (qt w)))]) /\
    heap (qt w') !! fresh (dom (heap (qt w))) = Some ao' /\
    cls ao' = QAction_ /\
    parent ao' = mainWindow /\
    objectName ao' = "HelpAboutnykAorticAppAction" /\
    text ao' = "About " +:+ applicationName (qt w) /\
    calls w' = calls w
                ++ [ C_new QAction_ mainWindow (fresh (dom (heap (qt w))));
                     C_setObjectName (fresh (dom (heap (qt w)))) "HelpAboutnykAorticAppAction";
                     C_setText (fresh (dom (heap (qt w))))
                               ("About " +:+ applicationName (qt w));
                     C_Superclass_setupUi d mainWindow;
                     C_addAction h (fresh (dom (heap (qt w)))) ]
                ++ rest.
Proof.
  intros HR.
  destruct (setupUi_exec rcc _ _ _ _ _ _ _ _ _ _ _ _ HR) as (w' & l & t & y & Hrun & R).
  destruct HR as [-> Hhost Hh Hk Ha Hac Hho Hhc Hmo Hmc Hko Hkc].
  destruct R as [(Fl & Ft & Fy) _ Rcalls _ _ _ Rmenu _ _ _ _ _ Rframe].
  set (a := fresh (dom (heap (qt w)))) in *.
  eexists w', _, _, _.
  split; [exact Hrun|].
  split; [apply fresh_heap|].
  split; [apply with_helpAboutAction_lookup|].
  split; [intros i Hi; apply with_helpAboutAction_frame; exact Hi|].
  split; [exact Rmenu|].
  split; [reflexivity|].
  split.
  { intros x. cbn [actions set_actions]. rewrite elem_of_app, list_elem_of_filter.
    rewrite list_elem_of_singleton.
    destruct (decide (x = a)); tauto. }
  split; [apply filter_ne_count|].
  split.
  { intros Hni. cbn [actions set_actions]. f_equal.
    clear -Hni. induction (actions ho) as [|x xs IH]; [reflexivity|].
    apply not_elem_of_cons in Hni as [Hx Hxs].
    cbn. rewrite decide_True by congruence. f_equal. apply IH, Hxs. }
  split.
  { rewrite Rframe by congruence. exact Ha. }
  split; [reflexivity|].
  split; [reflexivity|].
  split; [reflexivity|].
  split; [reflexivity|].
  rewrite Rcalls. reflexivity.
Qed.

Lemma C1_witness :
  exists w',
    qnykAorticAppMainWindowPrivate_setupUi SampleHost.rcc SampleHost.host 0%nat (Some 0%nat)
                                           SampleHost.world0 = Some (tt, w') /\
    (actions <$> heap (qt w') !! 7%nat) = Some [1%nat].
Proof.
  destruct (C1_setupUi_appends_about_action
              SampleHost.rcc SampleHost.host 0%nat (Some 0%nat) SampleHost.world0
              SampleHost.q1 0%nat 7%nat 8%nat
              (SampleHost.object_at SampleHost.q1 7%nat)
              (SampleHost.object_at SampleHost.q1 0%nat)
              (SampleHost.object_at SampleHost.q1 8%nat)
              ltac:(sample_ready))
    as (w' & ho' & ao' & rest & Hrun & _ & _ & _ & Hh & Hact & _).
  exists w'. split; [exact Hrun|].
  rewrite Hh. cbn [fmap option_fmap option_map]. rewrite Hact.
  vm_compute. reflexivity.
Defined.

(** C2.  Every run of the slot finishes; it builds the about dialog at a
    fresh address with the window as parent, loads :/Logo.png, sets it
    as the dialog's logo and executes the dialog, which is destroyed when
    the slot returns: these five entries are all the slot adds to the
    log, and the toolkit state after the slot is the state before it. *)
Theorem C2_about_slot_shows_dialog rcc this w :
  on_HelpAboutnykAorticAppAction_triggered rcc this w
  = Some (tt,
          mkWorld (qt w)
                  (calls w
                   ++ [ C_new qSlicerAboutDialog_ (Some this) (fresh (dom (heap (qt w))));
                        C_QPixmap ":/Logo.png";
                        C_setLogo (fresh (dom (heap (qt w)))) (load rcc ":/Logo.png");
                        C_exec (fresh (dom (heap (qt w))));
                        C_delete (fresh (dom (heap (qt w)))) ])).
Proof.
  pose proof (fresh_heap (heap (qt w))) as Hf.
  unfold on_HelpAboutnykAorticAppAction_triggered, bind, new,
    QPixmap_fromFile, qSlicerAboutDialog_setLogo, QDialog_exec, bind, log, ret,
    upd, deref, delete.
  cbn [qt calls heap set_heap].
  rewrite lookup_insert_eq. cbn [cls QObject_init].
  rewrite decide_True by reflexivity.
  cbn [qt calls heap set_heap pimpls attributes applicationName].
  rewrite lookup_insert_eq. cbn [cls set_logo QObject_init].
  rewrite decide_True by reflexivity.
  cbn [qt calls heap set_heap pimpls attributes applicationName].
  rewrite !delete_insert_eq, delete_id by exact Hf.
  rewrite <- !app_assoc. cbn [app].
  destruct w as [[hp ps ats nm] cs]. reflexivity.
Qed.

(** C3.  For any two resource tables, say one that holds the images and
    one that lacks them, [setupUi] from the same state fails under both
    or returns under both, and then the two final states and logs are
    equal up to the pixmap values and the debug text: the same calls in
    the same order on the same objects.  The About slot returns under
    every table, with the same property.  When :/LogoFull.png is
    missing and the superclass leaves [setupUi] able to run, [setupUi]
    returns, its log is the full list of its calls with the null pixmap
    passed to [setPixmap], and the logo label holds the null pixmap;
    when :/Logo.png is missing the slot's log is its usual five entries
    with the null pixmap passed to [setLogo]. *)
Theorem C3_missing_resource_is_not_a_failure rcc rcc' host d mainWindow this w :
  same_outcome eq
    (qnykAorticAppMainWindowPrivate_setupUi rcc host d mainWindow w)
    (qnykAorticAppMainWindowPrivate_setupUi rcc' host d mainWindow w) /\
  same_outcome eq
    (on_HelpAboutnykAorticAppAction_triggered rcc this w)
    (on_HelpAboutnykAorticAppAction_triggered rcc' this w) /\
  is_Some (on_HelpAboutnykAorticAppAction_triggered rcc this w) /\
  (rcc !! ":/LogoFull.png" = None ->
   forall q1 m h k ao ho mo ko,
     SetupUiReady host d mainWindow (qt w) q1 m h k ao ho mo ko ->
     exists w' l t y,
       qnykAorticAppMainWindowPrivate_setupUi rcc host d mainWindow w = Some (tt, w') /\
       calls w' = calls w ++ setupUi_calls d m (fresh (dom (heap (qt w)))) h k l t y
                                           (applicationName (qt w)) NullPixmap /\
       heap (qt w') !! l = Some (logoLabel_final NullPixmap t) /\
       pixmap (logoLabel_final NullPixmap t) = NullPixmap /\
       logo_debug NullPixmap
       = [DText "Logo pixmap is"; DText "NULL"; DText "with size"; DSize (mkQSize 0 0)]) /\
  (rcc !! ":/Logo.png" = None ->
   issued (on_HelpAboutnykAorticAppAction_triggered rcc this) w
   = Some (about_calls this (fresh (dom (heap (qt w)))) NullPixmap)).
Proof.
  split; [apply setupUi_same_outcome|].
  split; [apply about_same_outcome|].
  split.
  { destruct (about_exec rcc this w) as (w' & -> & _). eexists. reflexivity. }
  split.
  - intros Hmiss q1 m h k ao ho mo ko HR.
    destruct (setupUi_exec rcc _ _ _ _ _ _ _ _ _ _ _ _ HR) as (w' & l & t & y & Hrun & R).
    unfold load in R. rewrite Hmiss in R.
    destruct R as [_ _ Rcalls _ _ _ _ _ _ Rlabel _ _ _].
    exists w', l, t, y. auto.
  - intros Hmiss. rewrite about_issued. unfold load. rewrite Hmiss. reflexivity.
Qed.

Lemma C3_witness :
  exists w' l,
    qnykAorticAppMainWindowPrivate_setupUi ∅ SampleHost.host 0%nat (Some 0%nat)
                                           SampleHost.world0 = Some (tt, w') /\
    pixmap <$> (heap (qt w') !! l) = Some NullPixmap.
Proof.
  destruct (C3_missing_resource_is_not_a_failure
              ∅ SampleHost.rcc SampleHost.host 0%nat (Some 0%nat) 0%nat SampleHost.world0)
    as (_ & _ & _ & Hsetup & _).
  destruct (Hsetup ltac:(reflexivity)
                   SampleHost.q1 0%nat 7%nat 8%nat
                   (helpAboutAction (Some 0%nat) "nykAortic")
                   (SampleHost.object_at SampleHost.q1 7%nat)
                   (SampleHost.object_at SampleHost.q1 0%nat)
                   (SampleHost.object_at SampleHost.q1 8%nat)
                   ltac:(sample_ready))
    as (w' & l & t & y & Hrun & _ & Hl & _).
  exists w', l. split; [exact Hrun|]. rewrite Hl. reflexivity.
Defined.

(** C4, as stated, fails: in one session of the window (construction,
    [setupUi], one trigger of the About action) the layer names three
    resource paths, not two. *)
Lemma C4_counterexample :
  exists w',
    SampleHost.session = Some (tt, w') /\
    resource_paths (calls w')
    = [":/Icons/Medium/DesktopIcon.png"; ":/LogoFull.png"; ":/Logo.png"] /\
    size (resource_set (calls w')) <> 2%nat.
Proof.
  eexists. split; [vm_compute; reflexivity|].
  split; [vm_compute; reflexivity|].
  vm_compute. discriminate.
Qed.

(** C4, amended.  The layer names three resource paths: [setupUi] names
    the icon :/Icons/Medium/DesktopIcon.png and the logo :/LogoFull.png,
    in this order and nothing else; the About slot names the logo
    :/Logo.png and nothing else; [init] and the two constructors name
    none.  Together that is a set of three paths, one icon and two
    logos. *)
Theorem C4_three_resource_paths
        QT_VERSION rcc host d mainWindow w q1 m h k ao ho mo ko this wa :
  SetupUiReady host d mainWindow (qt w) q1 m h k ao ho mo ko ->
  exists ts ta,
    issued (qnykAorticAppMainWindowPrivate_setupUi rcc host d mainWindow) w = Some ts /\
    resource_paths ts = [":/Icons/Medium/DesktopIcon.png"; ":/LogoFull.png"] /\
    issued (on_HelpAboutnykAorticAppAction_triggered rcc this) wa = Some ta /\
    resource_paths ta = [":/Logo.png"] /\
    (forall d' wi ti,
        issued (qnykAorticAppMainWindowPrivate_init QT_VERSION host d') wi = Some ti ->
        resource_paths ti = []) /\
    (forall this' pimpl wp wi ti,
        issued (qnykAorticAppMainWindow_ctor_pimpl host this' pimpl wp) wi = Some ti ->
        resource_paths ti = []) /\
    (forall this' wp wi ti,
        issued (qnykAorticAppMainWindow_ctor QT_VERSION host this' wp) wi = Some ti ->
        resource_paths ti = []) /\
    resource_set (ts ++ ta)
    = {[ ":/Icons/Medium/DesktopIcon.png"; ":/LogoFull.png"; ":/Logo.png" ]} /\
    size (resource_set (ts ++ ta)) = 3%nat.
Proof.
  intros HR.
  destruct (setupUi_issued rcc _ _ _ _ _ _ _ _ _ _ _ _ HR) as (l & t & y & Hs).
  eexists _, _.
  split; [exact Hs|].
  split; [reflexivity|].
  split; [apply about_issued|].
  split; [reflexivity|].
  split.
  { intros d' wi ti Hi. apply init_issued in Hi as ->. apply init_calls_resources. }
  split.
  { intros this' pimpl wp wi ti. unfold issued, qnykAorticAppMainWindow_ctor_pimpl, call_host.
    destruct (qSlicerMainWindow_ctor host this' pimpl wp (qt wi)); [|discriminate].
    cbn [calls]. rewrite drop_app_length. intros [= <-]. reflexivity. }
  split.
  { intros this' wp wi ti Hi. apply ctor_issued in Hi as (d0 & d1 & ->).
    unfold resource_paths. rewrite omap_app. cbn [omap resource_path].
    apply init_calls_resources. }
  split.
  - unfold resource_set. cbn. set_solver.
  - unfold resource_set. cbn. vm_compute. reflexivity.
Qed.

Lemma C4_witness :
  exists ts ta,
    issued (qnykAorticAppMainWindowPrivate_setupUi SampleHost.rcc SampleHost.host
                                                   0%nat (Some 0%nat)) SampleHost.world0
    = Some ts /\
    issued (on_HelpAboutnykAorticAppAction_triggered SampleHost.rcc 0%nat) SampleHost.world1
    = Some ta /\
    size (resource_set (ts ++ ta)) = 3%nat.
Proof.
  destruct (C4_three_resource_paths
              (QT_VERSION_CHECK 5 15 2) SampleHost.rcc SampleHost.host 0%nat (Some 0%nat)
              SampleHost.world0 SampleHost.q1 0%nat 7%nat 8%nat
              (helpAboutAction (Some 0%nat) "nykAortic")
              (SampleHost.object_at SampleHost.q1 7%nat)
              (SampleHost.object_at SampleHost.q1 0%nat)
              (SampleHost.object_at SampleHost.q1 8%nat)
              0%nat SampleHost.world1
              ltac:(sample_ready))
    as (ts & ta & Hs & _ & Ha & _ & _ & _ & _ & _ & Hsize).
  exists ts, ta. auto.
Defined.

(** C5, as stated, fails twice on the sample host: the About slot issues
    no superclass call, and on Qt 5.15 [init] sets an application-wide
    attribute, which is none of the four listed concerns. *)
Lemma C5_counterexample :
  (exists tr,
      issued (on_HelpAboutnykAorticAppAction_triggered SampleHost.rcc 0%nat) SampleHost.world1
      = Some tr /\
      existsb is_Superclass_call tr = false) /\
  (exists tr,
      issued (qnykAorticAppMainWindowPrivate_init (QT_VERSION_CHECK 5 15 2) SampleHost.host 0%nat)
             SampleHost.start
      = Some tr /\
      tr = [C_setAttribute Qt_AA_UseHighDpiPixmaps; C_Superclass_init 0%nat] /\
      forall a m l t y, concern a m l t y (C_setAttribute Qt_AA_UseHighDpiPixmaps) = None).
Proof.
  split.
  - eexists. split; [vm_compute; reflexivity|]. reflexivity.
  - eexists. split; [vm_compute; reflexivity|]. split; reflexivity.
Qed.

(** C5, amended.  The layer has three hooks.  [init] and [setupUi]
    override the superclass's methods and call the overridden method
    exactly once; the About slot is a new slot and calls no superclass
    method.  Apart from the superclass call, [init] sets
    AA_UseHighDpiPixmaps from Qt 5.7 on and does nothing before 5.7;
    every other entry of [setupUi] concerns the About action, the window
    icon, the logo or the title bar; the slot's entries all act on the
    about dialog or load its logo. *)
Theorem C5_three_hooks
        QT_VERSION rcc host d mainWindow w q1 m h k ao ho mo ko di wi qi this wa :
  SetupUiReady host d mainWindow (qt w) q1 m h k ao ho mo ko ->
  qSlicerMainWindowPrivate_init host di
    (if (QT_VERSION_CHECK 5 7 0 <=? QT_VERSION)%Z
     then set_attributes ({[Qt_AA_UseHighDpiPixmaps]} ∪ attributes (qt wi)) (qt wi)
     else qt wi) = Some qi ->
  (exists ti,
      issued (qnykAorticAppMainWindowPrivate_init QT_VERSION host di) wi = Some ti /\
      List.filter is_Superclass_call ti = [C_Superclass_init di] /\
      List.filter (fun c => negb (is_Superclass_call c)) ti
      = if (QT_VERSION_CHECK 5 7 0 <=? QT_VERSION)%Z
        then [C_setAttribute Qt_AA_UseHighDpiPixmaps] else []) /\
  (exists ts l t y,
      issued (qnykAorticAppMainWindowPrivate_setupUi rcc host d mainWindow) w = Some ts /\
      List.filter is_Superclass_call ts = [C_Superclass_setupUi d mainWindow] /\
      Forall (fun c => is_Superclass_call c = true \/
                       is_Some (concern (fresh (dom (heap (qt w)))) m l t y c)) ts) /\
  (exists ta,
      issued (on_HelpAboutnykAorticAppAction_triggered rcc this) wa = Some ta /\
      List.filter is_Superclass_call ta = [] /\
      Forall (fun c => c = C_QPixmap ":/Logo.png" \/
                       subject c = Some (fresh (dom (heap (qt wa))))) ta).
Proof.
  intros HR Hinit.
  split.
  { eexists. split.
    - unfold issued. rewrite init_run, Hinit. cbn [calls].
      rewrite drop_app_length. reflexivity.
    - unfold init_calls. destruct (_ <=? _)%Z; split; reflexivity. }
  split.
  { destruct (setupUi_exec rcc _ _ _ _ _ _ _ _ _ _ _ _ HR) as (w' & l & t & y & Hrun & R).
    destruct HR as [-> _ _ _ _ _ _ _ Hmo _ _ _].
    destruct R as [(Fl & Ft & Fy) _ Rcalls _ _ _ _ _ _ _ _ _ _].
    assert (Hlm : (l =? m)%nat = false) by (apply Nat.eqb_neq; congruence).
    assert (Htm : (t =? m)%nat = false) by (apply Nat.eqb_neq; congruence).
    assert (Hym : (y =? m)%nat = false) by (apply Nat.eqb_neq; congruence).
    exists (setupUi_calls d m (fresh (dom (heap (qt w)))) h k l t y
                          (applicationName (qt w)) (load rcc ":/LogoFull.png")), l, t, y.
    split; [eapply issued_app; eassumption|].
    split; [reflexivity|].
    unfold setupUi_calls.
    repeat (apply Forall_cons; split;
            [first [ left; reflexivity
                   | right; cbn [concern subject];
                     rewrite ?Nat.eqb_refl, ?Hlm, ?Htm, ?Hym, ?orb_true_r;
                     repeat (destruct (_ =? _)%nat); eexists; reflexivity ] |]).
    apply Forall_nil_2. }
  eexists. split; [apply about_issued|].
  split; [reflexivity|].
  unfold about_calls.
  repeat (apply Forall_cons; split; [first [left; reflexivity | right; reflexivity]|]).
  apply Forall_nil_2.
Qed.

Lemma C5_witness :
  exists ts,
    issued (qnykAorticAppMainWindowPrivate_setupUi SampleHost.rcc SampleHost.host
                                                   0%nat (Some 0%nat)) SampleHost.world0
    = Some ts /\
    List.filter is_Superclass_call ts = [C_Superclass_setupUi 0%nat (Some 0%nat)].
Proof.
  destruct (C5_three_hooks
              (QT_VERSION_CHECK 5 15 2) SampleHost.rcc SampleHost.host 0%nat (Some 0%nat)
              SampleHost.world0 SampleHost.q1 0%nat 7%nat 8%nat
              (helpAboutAction (Some 0%nat) "nykAortic")
              (SampleHost.object_at SampleHost.q1 7%nat)
              (SampleHost.object_at SampleHost.q1 0%nat)
              (SampleHost.object_at SampleHost.q1 8%nat)
              0%nat SampleHost.start
              (mkQt ∅ ∅ {[Qt_AA_UseHighDpiPixmaps]} "nykAortic")
              0%nat SampleHost.world1
              ltac:(sample_ready) ltac:(vm_compute; reflexivity))
    as (_ & (ts & l & t & y & Hs & Hf & _) & _).
  exists ts. auto.
Defined.

(** C6, as stated, fails on the sample host: after [setupUi] the action
    (at 1), the logo label (at 9), the title-bar container (at 10) and
    its layout (at 11) are live, and no field of the private object
    points to any of them. *)
Lemma C6_counterexample :
  qnykAorticAppMainWindowPrivate_setupUi SampleHost.rcc SampleHost.host 0%nat (Some 0%nat)
                                         SampleHost.world0
  = Some (tt, SampleHost.world1) /\
  cls <$> (heap (qt SampleHost.world1) !! 1%nat) = Some QAction_ /\
  cls <$> (heap (qt SampleHost.world1) !! 9%nat) = Some QLabel_ /\
  cls <$> (heap (qt SampleHost.world1) !! 10%nat) = Some QWidget_ /\
  cls <$> (heap (qt SampleHost.world1) !! 11%nat) = Some QHBoxLayout_ /\
  exists pv,
    pimpls (qt SampleHost.world1) !! 0%nat = Some pv /\
    pimpl_refs pv
    = [Some 0%nat; Some 2%nat; Some 3%nat; Some 4%nat; Some 5%nat; Some 6%nat;
       Some 7%nat; Some 8%nat] /\
    ~ (Some 1%nat ∈ pimpl_refs pv \/ Some 9%nat ∈ pimpl_refs pv \/
       Some 10%nat ∈ pimpl_refs pv \/ Some 11%nat ∈ pimpl_refs pv).
Proof.
  split; [vm_compute; reflexivity|].
  do 4 (split; [vm_compute; reflexivity|]).
  eexists. split; [vm_compute; reflexivity|].
  split; [reflexivity|].
  unfold pimpl_refs.
  cbn [q_ptr menubar FileMenu EditMenu ViewMenu LayoutMenu HelpMenu PanelDockWidget].
  rewrite !elem_of_cons, !elem_of_nil.
  intros H. repeat (destruct H as [H|H]); try discriminate H; try exact H.
Qed.

(** C6, amended.  The layer adds no field to the private object and
    [setupUi] writes none: after [setupUi] the private object is as the
    superclass's [setupUi] left it, and any of its fields that pointed
    to an object live at that time points to none of the new widgets.
    The four references are locals of [setupUi]; what holds the widgets
    afterwards is the toolkit's object tree: the action is in the Help
    menu's list and live, the logo label is a child of the title-bar
    container and the first item of its layout, the layout is installed
    on the container, and the container is the title-bar widget and a
    child of the panel dock widget. *)
Theorem C6_widgets_held_by_object_tree
        rcc host d mainWindow w q1 m h k ao ho mo ko :
  SetupUiReady host d mainWindow (qt w) q1 m h k ao ho mo ko ->
  exists w' l t y hm lb tb ly dk,
    qnykAorticAppMainWindowPrivate_setupUi rcc host d mainWindow w = Some (tt, w') /\
    pimpls (qt w') = pimpls q1 /\
    (forall pv p x,
        pimpls (qt w') !! d = Some pv -> p ∈ pimpl_refs pv -> p = Some x ->
        is_Some (heap q1 !! x) -> x <> l /\ x <> t /\ x <> y) /\
    heap (qt w) !! fresh (dom (heap (qt w))) = None /\
    heap q1 !! l = None /\ heap q1 !! t = None /\ heap q1 !! y = None /\
    heap (qt w') !! fresh (dom (heap (qt w))) = Some ao /\
    heap (qt w') !! h = Some hm /\ fresh (dom (heap (qt w))) ∈ actions hm /\
    heap (qt w') !! l = Some lb /\ cls lb = QLabel_ /\ parent lb = Some t /\
    heap (qt w') !! t = Some tb /\ cls tb = QWidget_ /\ parent tb = Some k /\
    layout tb = Some y /\
    heap (qt w') !! y = Some ly /\ cls ly = QHBoxLayout_ /\ parent ly = Some t /\
    items ly = [ItemWidget l; ItemStretch 1] /\
    heap (qt w') !! k = Some dk /\ cls dk = QDockWidget_ /\ titleBarWidget dk = Some t.
Proof.
  intros HR.
  destruct (setupUi_exec rcc _ _ _ _ _ _ _ _ _ _ _ _ HR) as (w' & l & t & y & Hrun & R).
  destruct HR as [-> Hhost Hh Hk Ha Hac Hho Hhc Hmo Hmc Hko Hkc].
  destruct R as [(Fl & Ft & Fy) _ _ Rp _ _ Rmenu _ Rdock Rlabel Rtb Rly Rframe].
  exists w', l, t, y. eexists _, _, _, _, _.
  split; [exact Hrun|].
  split; [exact Rp|].
  split.
  { intros pv p x _ _ _ [o Hx]. repeat split; congruence. }
  split; [apply fresh_heap|].
  do 3 (split; [assumption|]).
  split; [rewrite Rframe by congruence; exact Ha|].
  split; [exact Rmenu|].
  split.
  { cbn [actions set_actions]. apply elem_of_app. right. apply list_elem_of_singleton.
    reflexivity. }
  split; [exact Rlabel|]. split; [reflexivity|]. split; [reflexivity|].
  split; [exact Rtb|]. split; [reflexivity|]. split; [reflexivity|]. split; [reflexivity|].
  split; [exact Rly|]. split; [reflexivity|]. split; [reflexivity|]. split; [reflexivity|].
  split; [exact Rdock|]. split; [exact Hkc|]. reflexivity.
Qed.

Lemma C6_witness :
  exists w',
    qnykAorticAppMainWindowPrivate_setupUi SampleHost.rcc SampleHost.host 0%nat (Some 0%nat)
                                           SampleHost.world0 = Some (tt, w') /\
    pimpls (qt w') = pimpls SampleHost.q1.
Proof.
  destruct (C6_widgets_held_by_object_tree
              SampleHost.rcc SampleHost.host 0%nat (Some 0%nat) SampleHost.world0
              SampleHost.q1 0%nat 7%nat 8%nat
              (helpAboutAction (Some 0%nat) "nykAortic")
              (SampleHost.object_at SampleHost.q1 7%nat)
              (SampleHost.object_at SampleHost.q1 0%nat)
              (SampleHost.object_at SampleHost.q1 8%nat)
              ltac:(sample_ready))
    as (w' & l & t & y & hm & lb & tb & ly & dk & Hrun & Hp & _).
  exists w'. auto.
Defined.

(** C8.  For a toolkit version major.minor.patch: from 5.7 on, [init]
    sets AA_UseHighDpiPixmaps and then calls the superclass's [init],
    which receives the state with the attribute set; [init] returns
    exactly when the superclass's does, with these two log entries in
    this order.  Before 5.7, [init] is the superclass call alone, on the
    state as it was. *)
Theorem C8_init_sets_high_dpi_before_forwarding major minor patch host d w :
  0 <= major -> 0 <= minor < 256 -> 0 <= patch < 256 ->
  (5 < major \/ (major = 5 /\ 7 <= minor) ->
   Qt_AA_UseHighDpiPixmaps ∈
     attributes (set_attributes ({[Qt_AA_UseHighDpiPixmaps]} ∪ attributes (qt w)) (qt w)) /\
   qnykAorticAppMainWindowPrivate_init (QT_VERSION_CHECK major minor patch) host d w
   = match qSlicerMainWindowPrivate_init host d
             (set_attributes ({[Qt_AA_UseHighDpiPixmaps]} ∪ attributes (qt w)) (qt w)) with
     | Some q' =>
         Some (tt, mkWorld q' (calls w ++ [C_setAttribute Qt_AA_UseHighDpiPixmaps;
                                          C_Superclass_init d]))
     | None => None
     end) /\
  (~ (5 < major \/ (major = 5 /\ 7 <= minor)) ->
   qnykAorticAppMainWindowPrivate_init (QT_VERSION_CHECK major minor patch) host d w
   = match qSlicerMainWindowPrivate_init host d (qt w) with
     | Some q' => Some (tt, mkWorld q' (calls w ++ [C_Superclass_init d]))
     | None => None
     end).
Proof.
  intros HM Hm Hp.
  pose proof (QT_VERSION_CHECK_5_7 major minor patch HM Hm Hp) as Hv.
  unfold qnykAorticAppMainWindowPrivate_init, bind.
  split; intros Hnew.
  - split; [cbn; apply elem_of_union_l, elem_of_singleton; reflexivity|].
    apply Hv in Hnew. apply Z.leb_le in Hnew. rewrite Hnew.
    unfold QApplication_setAttribute, call_host. cbn [qt calls].
    destruct (qSlicerMainWindowPrivate_init host d _); [|reflexivity].
    rewrite <- app_assoc. reflexivity.
  - assert (Hf : (QT_VERSION_CHECK 5 7 0 <=? QT_VERSION_CHECK major minor patch)%Z = false).
    { apply Z.leb_gt. apply Z.nle_gt. intros Hle. apply Hnew, Hv, Hle. }
    rewrite Hf. unfold ret, call_host. reflexivity.
Qed.

Lemma C8_witness :
  qnykAorticAppMainWindowPrivate_init (QT_VERSION_CHECK 5 15 2) SampleHost.host 0%nat
                                      SampleHost.start
  = Some (tt, mkWorld (mkQt ∅ ∅ {[Qt_AA_UseHighDpiPixmaps]} "nykAortic")
                      [C_setAttribute Qt_AA_UseHighDpiPixmaps; C_Superclass_init 0%nat])
  /\
  qnykAorticAppMainWindowPrivate_init (QT_VERSION_CHECK 5 6 3) SampleHost.host 0%nat
                                      SampleHost.start
  = Some (tt, mkWorld (mkQt ∅ ∅ ∅ "nykAortic") [C_Superclass_init 0%nat]).
Proof.
  split.
  - rewrite (proj2 (proj1 (C8_init_sets_high_dpi_before_forwarding
                             5 15 2 SampleHost.host 0%nat SampleHost.start
                             ltac:(lia) ltac:(lia) ltac:(lia))
                          ltac:(right; lia))).
    vm_compute. reflexivity.
  - rewrite (proj2 (C8_init_sets_high_dpi_before_forwarding
                      5 6 3 SampleHost.host 0%nat SampleHost.start
                      ltac:(lia) ltac:(lia) ltac:(lia))
                   ltac:(lia)).
    vm_compute. reflexivity.
Defined.

(** C9.  The protected constructor is the superclass constructor and
    nothing else: it returns exactly when the superclass constructor
    does, in the state that constructor returned, and its one log entry
    is that call, so no entry of [init] and no attribute change.  The
    public constructor builds the private object, calls the superclass
    constructor and then [init] on the window's private object: when
    these return it returns, and its log ends with the entries of
    [init]; in every run of it that returns, the last entry is the
    superclass [init] call. *)
Theorem C9_only_public_constructor_calls_init
        QT_VERSION host this pimpl windowParent w :
  qnykAorticAppMainWindow_ctor_pimpl host this pimpl windowParent w
  = match qSlicerMainWindow_ctor host this pimpl windowParent (qt w) with
    | Some q' => Some (tt, mkWorld q' (calls w ++ [C_Superclass_ctor this pimpl windowParent]))
    | None => None
    end /\
  (forall tr, issued (qnykAorticAppMainWindow_ctor_pimpl host this pimpl windowParent) w = Some tr ->
              tr = [C_Superclass_ctor this pimpl windowParent] /\
              (forall d, C_Superclass_init d ∉ tr) /\
              (forall a, C_setAttribute a ∉ tr)) /\
  (forall d qa qb o d' qc,
      qSlicerMainWindowPrivate_ctor host this (qt w) = Some (d, qa) ->
      qSlicerMainWindow_ctor host this (Some d) windowParent qa = Some qb ->
      heap qb !! this = Some o -> cls o = QMainWindow_ -> d_ptr o = Some d' ->
      qSlicerMainWindowPrivate_init host d'
        (if (QT_VERSION_CHECK 5 7 0 <=? QT_VERSION)%Z
         then set_attributes ({[Qt_AA_UseHighDpiPixmaps]} ∪ attributes qb) qb
         else qb) = Some qc ->
      qnykAorticAppMainWindow_ctor QT_VERSION host this windowParent w
      = Some (tt, mkWorld qc (calls w
                              ++ [C_Superclass_Private_ctor this d;
                                  C_Superclass_ctor this (Some d) windowParent]
                              ++ init_calls QT_VERSION d'))) /\
  (forall w', qnykAorticAppMainWindow_ctor QT_VERSION host this windowParent w = Some (tt, w') ->
              exists d' pre, calls w' = calls w ++ pre ++ [C_Superclass_init d']).
Proof.
  split; [reflexivity|].
  split.
  { intros tr. unfold issued, qnykAorticAppMainWindow_ctor_pimpl, call_host.
    destruct (qSlicerMainWindow_ctor host this pimpl windowParent (qt w)); [|discriminate].
    cbn [calls]. rewrite drop_app_length. intros [= <-].
    split; [reflexivity|].
    split; intros x Hx; apply list_elem_of_singleton in Hx; discriminate. }
  split.
  { intros d qa qb o d' qc Hpc Hwc Ho Hc Hd Hinit.
    unfold qnykAorticAppMainWindow_ctor, qnykAorticAppMainWindowPrivate_ctor,
      bind, call_host_new, call_host, d_func, bind, deref, nonnull.
    rewrite Hpc. cbn [qt calls]. rewrite Hwc. cbn [qt calls].
    rewrite Ho. rewrite decide_True by exact Hc. rewrite Hd.
    unfold ret. rewrite init_run. cbn [qt calls]. rewrite Hinit.
    rewrite <- !app_assoc. reflexivity. }
  intros w'.
  unfold qnykAorticAppMainWindow_ctor, qnykAorticAppMainWindowPrivate_ctor,
    bind, call_host_new, call_host, d_func, bind, deref, nonnull.
  destruct (qSlicerMainWindowPrivate_ctor host this (qt w)) as [[d qa]|]; [|discriminate].
  cbn [qt calls].
  destruct (qSlicerMainWindow_ctor host this (Some d) windowParent qa) as [qb|]; [|discriminate].
  cbn [qt calls].
  destruct (heap qb !! this) as [o|]; [|discriminate].
  destruct (decide (cls o = QMainWindow_)); [|discriminate].
  destruct (d_ptr o) as [d'|]; [|discriminate].
  unfold ret. rewrite init_run. cbn [qt calls].
  destruct (qSlicerMainWindowPrivate_init host d' _) as [qc|]; [|discriminate].
  intros [= <-]. cbn [calls]. unfold init_calls.
  exists d'.
  exists ([C_Superclass_Private_ctor this d; C_Superclass_ctor this (Some d) windowParent]
          ++ (if (QT_VERSION_CHECK 5 7 0 <=? QT_VERSION)%Z
              then [C_setAttribute Qt_AA_UseHighDpiPixmaps] else [])).
  rewrite <- !app_assoc. reflexivity.
Qed.

Lemma C9_witness :
  issued (qnykAorticAppMainWindow_ctor_pimpl SampleHost.host 0%nat None None) SampleHost.start
  = Some [C_Superclass_ctor 0%nat None None] /\
  exists w', qnykAorticAppMainWindow_ctor (QT_VERSION_CHECK 5 15 2) SampleHost.host
                                          0%nat None SampleHost.start = Some (tt, w').
Proof.
  destruct (C9_only_public_constructor_calls_init
              (QT_VERSION_CHECK 5 15 2) SampleHost.host 0%nat None None SampleHost.start)
    as (_ & Hprot & Hpub & _).
  split.
  - destruct (Hprot [C_Superclass_ctor 0%nat None None] ltac:(vm_compute; reflexivity))
      as (_ & _ & _).
    vm_compute. reflexivity.
  - eexists.
    refine (Hpub 0%nat
                 (mkQt ∅ {[0%nat := mkPrivate (Some 0%nat) None None None None None None None]}
                       ∅ "nykAortic")
                 (set_attributes ∅ (qt SampleHost.world0))
                 (SampleHost.object_at (qt SampleHost.world0) 0%nat) 0%nat
                 (qt SampleHost.world0) _ _ _ _ _ _);
      vm_compute; reflexivity.
Defined.

(** C10.  When [setupUi] runs to its end, every object the superclass's
    [setupUi] left in the store is still there with the same class,
    parent, name and visibility; the window differs from what the
    superclass left by its icon alone, the Help menu by its action list
    alone, the panel dock widget by its title-bar widget alone, and
    every other such object is unchanged; the private object, the
    application attributes and the application name are as the
    superclass left them.  In particular the menu bar and the File,
    Edit, View, Layout and Help menus keep the visibility the superclass
    gave them. *)
Theorem C10_setupUi_keeps_menus_visible
        rcc host d mainWindow w q1 m h k ao ho mo ko :
  SetupUiReady host d mainWindow (qt w) q1 m h k ao ho mo ko ->
  exists w' t,
    qnykAorticAppMainWindowPrivate_setupUi rcc host d mainWindow w = Some (tt, w') /\
    pimpls (qt w') = pimpls q1 /\
    attributes (qt w') = attributes q1 /\
    applicationName (qt w') = applicationName q1 /\
    heap (qt w') !! m
      = Some (set_windowIcon (IconFile ":/Icons/Medium/DesktopIcon.png") mo) /\
    heap (qt w') !! h
      = Some (set_actions (filter (fun x => x <> fresh (dom (heap (qt w)))) (actions ho)
                           ++ [fresh (dom (heap (qt w)))]) ho) /\
    heap (qt w') !! k = Some (set_titleBarWidget (Some t) ko) /\
    heap q1 !! t = None /\
    (forall i, i <> m -> i <> h -> i <> k -> is_Some (heap q1 !! i) ->
               heap (qt w') !! i = heap q1 !! i) /\
    (forall i o, heap q1 !! i = Some o ->
                 exists o', heap (qt w') !! i = Some o' /\
                            visible o' = visible o /\ cls o' = cls o /\
                            parent o' = parent o /\ objectName o' = objectName o) /\
    (forall pv p i o,
        pimpls q1 !! d = Some pv -> p ∈ standard_menus pv -> p = Some i ->
        heap q1 !! i = Some o ->
        pimpls (qt w') !! d = Some pv /\
        visible <$> (heap (qt w') !! i) = Some (visible o)).
Proof.
  intros HR.
  destruct (setupUi_exec rcc _ _ _ _ _ _ _ _ _ _ _ _ HR) as (w' & l & t & y & Hrun & R).
  destruct HR as [-> Hhost Hh Hk Ha Hac Hho Hhc Hmo Hmc Hko Hkc].
  destruct R as [(Fl & Ft & Fy) _ _ Rp Ra Rn Rmenu Rwin Rdock _ _ _ Rframe].
  assert (Hobj : forall i o, heap q1 !! i = Some o ->
                 exists o', heap (qt w') !! i = Some o' /\
                            visible o' = visible o /\ cls o' = cls o /\
                            parent o' = parent o /\ objectName o' = objectName o).
  { intros i o Hi.
    destruct (decide (i = h)) as [->|Hih].
    { rewrite Hho in Hi. injection Hi as <-. eexists. split; [exact Rmenu|]. auto. }
    destruct (decide (i = m)) as [->|Him].
    { rewrite Hmo in Hi. injection Hi as <-. eexists. split; [exact Rwin|]. auto. }
    destruct (decide (i = k)) as [->|Hik].
    { rewrite Hko in Hi. injection Hi as <-. eexists. split; [exact Rdock|]. auto. }
    exists o. rewrite Rframe by congruence. auto. }
  exists w', t.
  split; [exact Hrun|].
  split; [exact Rp|]. split; [exact Ra|]. split; [exact Rn|].
  split; [exact Rwin|]. split; [exact Rmenu|]. split; [exact Rdock|].
  split; [exact Ft|].
  split.
  { intros i Him Hih Hik [o Hi]. apply Rframe; congruence. }
  split; [exact Hobj|].
  intros pv p i o Hpv _ -> Hi.
  split; [rewrite Rp; exact Hpv|].
  destruct (Hobj i o Hi) as (o' & -> & Hv & _). cbn. rewrite Hv. reflexivity.
Qed.

Lemma C10_witness :
  exists w',
    qnykAorticAppMainWindowPrivate_setupUi SampleHost.rcc SampleHost.host 0%nat (Some 0%nat)
                                           SampleHost.world0 = Some (tt, w') /\
    visible <$> (heap (qt w') !! 2%nat) = Some true /\
    visible <$> (heap (qt w') !! 7%nat) = Some true.
Proof.
  destruct (C10_setupUi_keeps_menus_visible
              SampleHost.rcc SampleHost.host 0%nat (Some 0%nat) SampleHost.world0
              SampleHost.q1 0%nat 7%nat 8%nat
              (helpAboutAction (Some 0%nat) "nykAortic")
              (SampleHost.object_at SampleHost.q1 7%nat)
              (SampleHost.object_at SampleHost.q1 0%nat)
              (SampleHost.object_at SampleHost.q1 8%nat)
              ltac:(sample_ready))
    as (w' & t & Hrun & _ & _ & _ & _ & _ & _ & _ & _ & _ & Hmenus).
  exists w'. split; [exact Hrun|].
  split.
  - refine (proj2 (Hmenus (SampleHost.object_at_pimpl SampleHost.q1 0%nat) (Some 2%nat) 2%nat
                          (SampleHost.object_at SampleHost.q1 2%nat) _ _ _ _)).
    + vm_compute; reflexivity.
    + apply list_elem_of_In. vm_compute. tauto.
    + reflexivity.
    + vm_compute; reflexivity.
  - refine (proj2 (Hmenus (SampleHost.object_at_pimpl SampleHost.q1 0%nat) (Some 7%nat) 7%nat
                          (SampleHost.object_at SampleHost.q1 7%nat) _ _ _ _)).
    + vm_compute; reflexivity.
    + apply list_elem_of_In. vm_compute. tauto.
    + reflexivity.
    + vm_compute; reflexivity.
Defined.

(** * More about the entry points *)

Lemma X1_witness :
  is_Some (qnykAorticAppMainWindowPrivate_setupUi SampleHost.rcc SampleHost.host
                                                  0%nat (Some 0%nat) SampleHost.world0).
Proof.
  apply (proj2 (setupUi_returns_iff SampleHost.rcc SampleHost.host 0%nat (Some 0%nat)
                                    SampleHost.world0)).
  exists SampleHost.q1, 0%nat, 7%nat, 8%nat,
         (helpAboutAction (Some 0%nat) "nykAortic"),
         (SampleHost.object_at SampleHost.q1 7%nat),
         (SampleHost.object_at SampleHost.q1 0%nat),
         (SampleHost.object_at SampleHost.q1 8%nat).
  sample_ready.
Defined.

(** X2.  [setupUi] does not return when it is given a null window
    pointer, when the superclass's [setupUi] does not return, or when the
    superclass leaves [HelpMenu] or [PanelDockWidget] null: each of them
    is dereferenced without a test. *)
Theorem X2_setupUi_null_pointers rcc host d mainWindow w :
  (mainWindow = None ->
   qnykAorticAppMainWindowPrivate_setupUi rcc host d mainWindow w = None) /\
  (qSlicerMainWindowPrivate_setupUi host d mainWindow
     (with_helpAboutAction mainWindow (qt w)) = None ->
   qnykAorticAppMainWindowPrivate_setupUi rcc host d mainWindow w = None) /\
  (forall q1 pv,
      qSlicerMainWindowPrivate_setupUi host d mainWindow
        (with_helpAboutAction mainWindow (qt w)) = Some q1 ->
      pimpls q1 !! d = Some pv ->
      HelpMenu pv = None \/ PanelDockWidget pv = None ->
      qnykAorticAppMainWindowPrivate_setupUi rcc host d mainWindow w = None).
Proof.
  assert (Hinv : forall r,
             qnykAorticAppMainWindowPrivate_setupUi rcc host d mainWindow w = Some r ->
             exists q1 m h k ao ho mo ko,
               SetupUiReady host d mainWindow (qt w) q1 m h k ao ho mo ko).
  { intros [u w'] Hrun. exact (setupUi_inv rcc host d mainWindow w u w' Hrun). }
  split; [|split].
  - intros Hnull.
    destruct (qnykAorticAppMainWindowPrivate_setupUi rcc host d mainWindow w) as [r|] eqn:E;
      [exfalso | reflexivity].
    destruct (Hinv r eq_refl) as (q1 & m & h & k & ao & ho & mo & ko & HR).
    destruct HR as [Hw _ _ _ _ _ _ _ _ _ _ _]. congruence.
  - intros Hhost.
    destruct (qnykAorticAppMainWindowPrivate_setupUi rcc host d mainWindow w) as [r|] eqn:E;
      [exfalso | reflexivity].
    destruct (Hinv r eq_refl) as (q1 & m & h & k & ao & ho & mo & ko & HR).
    destruct HR as [_ Hh _ _ _ _ _ _ _ _ _ _]. congruence.
  - intros q1 pv Hhost Hpv Hnull.
    destruct (qnykAorticAppMainWindowPrivate_setupUi rcc host d mainWindow w) as [r|] eqn:E;
      [exfalso | reflexivity].
    destruct (Hinv r eq_refl) as (q1' & m & h & k & ao & ho & mo & ko & HR).
    destruct HR as [_ Hh Hhm Hpd _ _ _ _ _ _ _ _].
    assert (q1' = q1) by congruence. subst q1'.
    rewrite Hpv in Hhm, Hpd. cbn in Hhm, Hpd.
    destruct Hnull as [Hn|Hn]; congruence.
Qed.

Lemma X2_witness :
  qnykAorticAppMainWindowPrivate_setupUi SampleHost.rcc SampleHost.host 0%nat None
                                         SampleHost.world0 = None.
Proof.
  exact (proj1 (X2_setupUi_null_pointers SampleHost.rcc SampleHost.host 0%nat None
                                         SampleHost.world0) eq_refl).
Defined.



(** X4.  [setupUi] destroys nothing and, after the superclass call,
    creates exactly three objects: the objects of its final store are
    those the superclass left plus the logo label, the title-bar
    container and its layout, three distinct addresses none of which was
    in use; before the superclass call the store has grown by the action
    alone. *)
Theorem X4_setupUi_adds_three_objects
        rcc host d mainWindow w q1 m h k ao ho mo ko :
  SetupUiReady host d mainWindow (qt w) q1 m h k ao ho mo ko ->
  exists w' l t y,
    qnykAorticAppMainWindowPrivate_setupUi rcc host d mainWindow w = Some (tt, w') /\
    dom (heap (with_helpAboutAction mainWindow (qt w)))
    = dom (heap (qt w)) ∪ {[fresh (dom (heap (qt w)))]} /\
    (fresh (dom (heap (qt w))) ∉ dom (heap (qt w))) /\
    dom (heap (qt w')) = dom (heap q1) ∪ {[l; t; y]} /\
    (l ∉ dom (heap q1)) /\ (t ∉ dom (heap q1)) /\ (y ∉ dom (heap q1)) /\
    l <> t /\ l <> y /\ t <> y /\
    (dom (heap q1) ⊆ dom (heap (qt w'))) /\
    size (dom (heap (qt w'))) = (size (dom (heap q1)) + 3)%nat.
Proof.
  intros HR.
  destruct (setupUi_exec rcc _ _ _ _ _ _ _ _ _ _ _ _ HR) as (w' & l & t & y & Hrun & R).
  destruct HR as [-> Hhost Hh Hk Ha Hac Hho Hhc Hmo Hmc Hko Hkc].
  destruct R as [(Fl & Ft & Fy) (Hlt & Hly & Hty) _ _ _ _ Rmenu Rwin Rdock Rlabel Rtb Rly Rframe].
  assert (Hdom : dom (heap (qt w')) = dom (heap q1) ∪ {[l; t; y]}).
  { apply set_eq. intros i.
    rewrite !elem_of_union, !elem_of_singleton, !elem_of_dom.
    split.
    - intros Hi.
      destruct (decide (i = l)) as [->|Hil]; [tauto|].
      destruct (decide (i = t)) as [->|Hit]; [tauto|].
      destruct (decide (i = y)) as [->|Hiy]; [tauto|].
      left.
      destruct (decide (i = h)) as [->|Hih]; [eauto|].
      destruct (decide (i = m)) as [->|Him]; [eauto|].
      destruct (decide (i = k)) as [->|Hik]; [eauto|].
      rewrite <- Rframe by assumption. exact Hi.
    - intros [Hi|[[->| ->]| ->]]; [|rewrite Rlabel; eauto|rewrite Rtb; eauto|rewrite Rly; eauto].
      destruct (decide (i = h)) as [->|Hih]; [rewrite Rmenu; eauto|].
      destruct (decide (i = m)) as [->|Him]; [rewrite Rwin; eauto|].
      destruct (decide (i = k)) as [->|Hik]; [rewrite Rdock; eauto|].
      destruct Hi as [o Hi].
      rewrite Rframe by congruence. eauto. }
  assert (Nl : l ∉ dom (heap q1)) by (apply not_elem_of_dom; exact Fl).
  assert (Nt : t ∉ dom (heap q1)) by (apply not_elem_of_dom; exact Ft).
  assert (Ny : y ∉ dom (heap q1)) by (apply not_elem_of_dom; exact Fy).
  exists w', l, t, y.
  split; [exact Hrun|].
  split; [unfold with_helpAboutAction; cbn [heap set_heap]; rewrite dom_insert_L;
          apply set_eq; intros i; rewrite !elem_of_union; tauto|].
  split; [apply is_fresh|].
  split; [exact Hdom|].
  do 3 (split; [assumption|]).
  do 3 (split; [assumption|]).
  split.
  { rewrite Hdom. intros i Hi. apply elem_of_union. left. exact Hi. }
  rewrite Hdom.
  rewrite size_union.
  - f_equal.
    rewrite !size_union, !size_singleton; [reflexivity| |].
    + intros i Hi1 Hi2. apply elem_of_singleton in Hi1, Hi2. congruence.
    + intros i Hi1 Hi2. apply elem_of_union in Hi1. apply elem_of_singleton in Hi2.
      destruct Hi1 as [Hi1|Hi1]; apply elem_of_singleton in Hi1; congruence.
  - intros i Hi1 Hi2.
    rewrite !elem_of_union, !elem_of_singleton in Hi2.
    destruct Hi2 as [[->| ->]| ->]; tauto.
Qed.

Lemma X4_witness :
  exists w',
    qnykAorticAppMainWindowPrivate_setupUi SampleHost.rcc SampleHost.host 0%nat (Some 0%nat)
                                           SampleHost.world0 = Some (tt, w') /\
    size (dom (heap (qt w'))) = 12%nat.
Proof.
  destruct (X4_setupUi_adds_three_objects
              SampleHost.rcc SampleHost.host 0%nat (Some 0%nat) SampleHost.world0
              SampleHost.q1 0%nat 7%nat 8%nat
              (helpAboutAction (Some 0%nat) "nykAortic")
              (SampleHost.object_at SampleHost.q1 7%nat)
              (SampleHost.object_at SampleHost.q1 0%nat)
              (SampleHost.object_at SampleHost.q1 8%nat)
              ltac:(sample_ready))
    as (w' & l & t & y & Hrun & _ & _ & _ & _ & _ & _ & _ & _ & _ & _ & Hsize).
  exists w'. split; [exact Hrun|]. rewrite Hsize. vm_compute. reflexivity.
Defined.

Lemma about_run rcc this w :
  on_HelpAboutnykAorticAppAction_triggered rcc this w
  = Some (tt, mkWorld (qt w)
                      (calls w ++ about_calls this (fresh (dom (heap (qt w))))
                                              (load rcc ":/Logo.png"))).
Proof.
  destruct (about_exec rcc this w) as (w' & Hrun & Hcalls).
  rewrite Hrun. f_equal. f_equal.
  destruct w' as [q' cs']. cbn [calls] in Hcalls. subst cs'. f_equal.
  revert Hrun.
  unfold on_HelpAboutnykAorticAppAction_triggered, bind, new,
    QPixmap_fromFile, qSlicerAboutDialog_setLogo, QDialog_exec, bind, log, ret,
    upd, deref, delete.
  cbn [qt calls heap set_heap].
  rewrite lookup_insert_eq. cbn [cls QObject_init].
  rewrite decide_True by reflexivity.
  cbn [qt calls heap set_heap pimpls attributes applicationName].
  rewrite lookup_insert_eq. cbn [cls set_logo QObject_init].
  rewrite decide_True by reflexivity.
  cbn [qt calls heap set_heap pimpls attributes applicationName].
  rewrite !delete_insert_eq, delete_id by apply fresh_heap.
  intros [= <- _]. destruct (qt w). reflexivity.
Qed.

(** X5.  Triggering the About action any number of times, one trigger
    after the other, always returns and leaves the toolkit state as it
    was before the first trigger: no dialog outlives its trigger, every
    trigger builds its dialog at the same address, and the log grows by
    the slot's five entries per trigger. *)
Theorem X5_repeated_triggers_leave_no_dialog rcc this n w :
  triggered rcc this n w
  = Some (tt, mkWorld (qt w)
                      (calls w
                       ++ concat (replicate n (about_calls this (fresh (dom (heap (qt w))))
                                                           (load rcc ":/Logo.png"))))) /\
  length (concat (replicate n (about_calls this (fresh (dom (heap (qt w))))
                                           (load rcc ":/Logo.png"))))
  = (5 * n)%nat.
Proof.
  split.
  - revert w. induction n as [|n IH]; intros w.
    + cbn. rewrite app_nil_r. destruct w. reflexivity.
    + cbn [triggered]. unfold bind. rewrite about_run, IH. cbn [qt calls replicate concat].
      rewrite <- app_assoc. reflexivity.
  - induction n as [|n IH]; [reflexivity|].
    cbn [replicate concat]. rewrite length_app, IH. cbn [about_calls length]. lia.
Qed.

(** X6.  The public constructor returns exactly when the superclass
    builds the private object, the superclass constructor returns, the
    window then is live with a non-null pointer to a private object, and
    the superclass's [init] returns on the state [init] hands it.  If the
    superclass constructor leaves the window without a private object,
    the constructor's call of [init] is through a null pointer and the
    constructor does not return. *)
Theorem X6_public_constructor_returns_iff QT_VERSION host this windowParent w :
  (is_Some (qnykAorticAppMainWindow_ctor QT_VERSION host this windowParent w)
   <-> exists d qa qb o d' qc,
         qSlicerMainWindowPrivate_ctor host this (qt w) = Some (d, qa) /\
         qSlicerMainWindow_ctor host this (Some d) windowParent qa = Some qb /\
         heap qb !! this = Some o /\ cls o = QMainWindow_ /\ d_ptr o = Some d' /\
         qSlicerMainWindowPrivate_init host d'
           (if (QT_VERSION_CHECK 5 7 0 <=? QT_VERSION)%Z
            then set_attributes ({[Qt_AA_UseHighDpiPixmaps]} ∪ attributes qb) qb
            else qb) = Some qc) /\
  (forall d qa qb o,
      qSlicerMainWindowPrivate_ctor host this (qt w) = Some (d, qa) ->
      qSlicerMainWindow_ctor host this (Some d) windowParent qa = Some qb ->
      heap qb !! this = Some o -> d_ptr o = None ->
      qnykAorticAppMainWindow_ctor QT_VERSION host this windowParent w = None).
Proof.
  split; [split|].
  - intros [r Hr]. revert Hr.
    unfold qnykAorticAppMainWindow_ctor, qnykAorticAppMainWindowPrivate_ctor,
      bind, call_host_new, call_host, d_func, bind, deref, nonnull.
    destruct (qSlicerMainWindowPrivate_ctor host this (qt w)) as [[d qa]|] eqn:Ep;
      [|discriminate].
    cbn [qt calls].
    destruct (qSlicerMainWindow_ctor host this (Some d) windowParent qa) as [qb|] eqn:Eb;
      [|discriminate].
    cbn [qt calls].
    destruct (heap qb !! this) as [o|] eqn:Eo; [|discriminate].
    destruct (decide (cls o = QMainWindow_)) as [Hc|Hc]; [|discriminate].
    destruct (d_ptr o) as [d'|] eqn:Ed; [|discriminate].
    unfold ret. rewrite init_run. cbn [qt calls].
    destruct (qSlicerMainWindowPrivate_init host d' _) as [qc|] eqn:Ei; [|discriminate].
    intros _. exists d, qa, qb, o, d', qc.
    repeat split; first [assumption | reflexivity].
  - intros (d & qa & qb & o & d' & qc & Hp & Hb & Ho & Hc & Hd & Hi).
    unfold qnykAorticAppMainWindow_ctor, qnykAorticAppMainWindowPrivate_ctor,
      bind, call_host_new, call_host, d_func, bind, deref, nonnull.
    rewrite Hp. cbn [qt calls]. rewrite Hb. cbn [qt calls]. rewrite Ho.
    rewrite decide_True by exact Hc. rewrite Hd.
    unfold ret. rewrite init_run. cbn [qt calls]. rewrite Hi.
    eexists. reflexivity.
  - intros d qa qb o Hp Hb Ho Hd.
    unfold qnykAorticAppMainWindow_ctor, qnykAorticAppMainWindowPrivate_ctor,
      bind, call_host_new, call_host, d_func, bind, deref, nonnull.
    rewrite Hp. cbn [qt calls]. rewrite Hb. cbn [qt calls]. rewrite Ho.
    destruct (decide (cls o = QMainWindow_)); [|reflexivity].
    rewrite Hd. reflexivity.
Qed.

Lemma X6_witness :
  is_Some (qnykAorticAppMainWindow_ctor (QT_VERSION_CHECK 5 15 2) SampleHost.host
                                        0%nat None SampleHost.start).
Proof.
  apply (proj2 (proj1 (X6_public_constructor_returns_iff
                         (QT_VERSION_CHECK 5 15 2) SampleHost.host 0%nat None
                         SampleHost.start))).
  exists 0%nat,
         (mkQt ∅ {[0%nat := mkPrivate (Some 0%nat) None None None None None None None]}
               ∅ "nykAortic"),
         (set_attributes ∅ (qt SampleHost.world0)),
         (SampleHost.object_at (qt SampleHost.world0) 0%nat), 0%nat,
         (qt SampleHost.world0).
  repeat split; vm_compute; reflexivity.
Defined.



Lemma parents_liveb_sound hp : parents_liveb hp = true -> parents_live hp.
Proof.
  unfold parents_liveb. intros H i o p Hi Hp.
  rewrite forallb_forall in H.
  specialize (H (i, o)). cbn in H. rewrite Hp in H.
  eapply bool_decide_eq_true_1, H.
  apply list_elem_of_In, elem_of_map_to_list. exact Hi.
Qed.

(** X8.  [setupUi] keeps the object tree closed under parents: if no
    object the superclass left has a dangling parent, none has after
    [setupUi].  The logo label and the title-bar container are created
    without a parent, and neither stays so: on return the label and the
    layout are children of the container and the container is a child of
    the panel dock widget, so each new widget has an owner in the tree. *)
Theorem X8_setupUi_leaves_no_orphan
        rcc host d mainWindow w q1 m h k ao ho mo ko :
  SetupUiReady host d mainWindow (qt w) q1 m h k ao ho mo ko ->
  parents_live (heap q1) ->
  exists w' l t y lb tb ly,
    qnykAorticAppMainWindowPrivate_setupUi rcc host d mainWindow w = Some (tt, w') /\
    parents_live (heap (qt w')) /\
    heap (qt w') !! l = Some lb /\ parent lb = Some t /\
    heap (qt w') !! y = Some ly /\ parent ly = Some t /\
    heap (qt w') !! t = Some tb /\ parent tb = Some k /\
    is_Some (heap (qt w') !! k).
Proof.
  intros HR HP.
  destruct (setupUi_exec rcc _ _ _ _ _ _ _ _ _ _ _ _ HR) as (w' & l & t & y & Hrun & R).
  destruct HR as [-> Hhost Hh Hk Ha Hac Hho Hhc Hmo Hmc Hko Hkc].
  destruct R as [(Fl & Ft & Fy) _ _ _ _ _ Rmenu Rwin Rdock Rlabel Rtb Rly Rframe].
  assert (Hkeep : forall p, is_Some (heap q1 !! p) -> is_Some (heap (qt w') !! p)).
  { intros p [o Hp].
    destruct (decide (p = h)) as [->|?]; [rewrite Rmenu; eauto|].
    destruct (decide (p = m)) as [->|?]; [rewrite Rwin; eauto|].
    destruct (decide (p = k)) as [->|?]; [rewrite Rdock; eauto|].
    rewrite Rframe by congruence. eauto. }
  exists w', l, t, y. eexists _, _, _.
  split; [exact Hrun|].
  split.
  { intros i o p Hi Hpar.
    destruct (decide (i = l)) as [->|Hil].
    { rewrite Rlabel in Hi. injection Hi as <-. cbn in Hpar. injection Hpar as <-.
      rewrite Rtb. eauto. }
    destruct (decide (i = t)) as [->|Hit].
    { rewrite Rtb in Hi. injection Hi as <-. cbn in Hpar. injection Hpar as <-.
      rewrite Rdock. eauto. }
    destruct (decide (i = y)) as [->|Hiy].
    { rewrite Rly in Hi. injection Hi as <-. cbn in Hpar. injection Hpar as <-.
      rewrite Rtb. eauto. }
    apply Hkeep.
    destruct (decide (i = h)) as [->|Hih].
    { rewrite Rmenu in Hi. injection Hi as <-. exact (HP h ho p Hho Hpar). }
    destruct (decide (i = m)) as [->|Him].
    { rewrite Rwin in Hi. injection Hi as <-. exact (HP m mo p Hmo Hpar). }
    destruct (decide (i = k)) as [->|Hik].
    { rewrite Rdock in Hi. injection Hi as <-. exact (HP k ko p Hko Hpar). }
    rewrite Rframe in Hi by assumption. exact (HP i o p Hi Hpar). }
  split; [exact Rlabel|]. split; [reflexivity|].
  split; [exact Rly|]. split; [reflexivity|].
  split; [exact Rtb|]. split; [reflexivity|].
  rewrite Rdock. eauto.
Qed.

Lemma X8_witness :
  exists w',
    qnykAorticAppMainWindowPrivate_setupUi SampleHost.rcc SampleHost.host 0%nat (Some 0%nat)
                                           SampleHost.world0 = Some (tt, w') /\
    parents_live (heap (qt w')).
Proof.
  destruct (X8_setupUi_leaves_no_orphan
              SampleHost.rcc SampleHost.host 0%nat (Some 0%nat) SampleHost.world0
              SampleHost.q1 0%nat 7%nat 8%nat
              (helpAboutAction (Some 0%nat) "nykAortic")
              (SampleHost.object_at SampleHost.q1 7%nat)
              (SampleHost.object_at SampleHost.q1 0%nat)
              (SampleHost.object_at SampleHost.q1 8%nat)
              ltac:(sample_ready)
              ltac:(apply parents_liveb_sound; vm_compute; reflexivity))
    as (w' & l & t & y & lb & tb & ly & Hrun & Hlive & _).
  exists w'. auto.
Defined.
